(** * SigDigger: panoramic-spectrum range reconciliation and PSD staleness filter

    A shallow embedding of
      - [UIMediator::feedPSD]            (UIMediator/SpectrumMediator.cpp),
      - [SavedSpectrum], [PanoramicDialogConfig] and the range, zoom, pan and
        scan handlers of [PanoramicDialog] (Components/PanoramicDialog.cpp),
    together with the properties the specification states about them.

    Conventions.
      - Frequencies, bandwidths and time fields are [Z].  [qint64] arithmetic
        is modelled without overflow (signed overflow is undefined in C++);
        [SUFREQ] (double) values are integral frequencies in Hz, on which
        double arithmetic is exact below 2^53; integer division is C++
        truncation, [Z.quot].
      - [float] arithmetic (the relative-bandwidth factor and the mode
        threshold) is IEEE-754 binary32, through the Standard Library's
        [SpecFloat].
      - Widgets and collaborators the handlers talk to are either small state
        records (spin boxes, buttons) or an interface class (the waterfall);
        emitted Qt signals and message boxes are returned as a list of
        events, oldest first.  Slots that the toolkit would run from inside a
        widget setter (signal delivery) are not part of a handler's body and
        are not unfolded into it. *)

From Stdlib Require Import ZArith List Bool Lia.
From Stdlib Require Import Floats.SpecFloat.
From stdpp Require Import base gmap strings pretty.

Import ListNotations.
Local Open Scope Z_scope.

(* ===================================================================== *)
(** * Part I: the embedding                                               *)
(* ===================================================================== *)

(** ** [struct timeval] and the libc timer macros used by [feedPSD] *)

Module Timeval.

Record timeval : Type := mkTimeval { tv_sec : Z; tv_usec : Z }.

(** [timersub(a, b, result)] of <sys/time.h>. *)
Definition timersub (a b : timeval) : timeval :=
  let sec := tv_sec a - tv_sec b in
  let usec := tv_usec a - tv_usec b in
  if usec <? 0 then mkTimeval (sec - 1) (usec + 1000000)
  else mkTimeval sec usec.

(** [timercmp(a, b, >)] of <sys/time.h>. *)
Definition timercmp_gt (a b : timeval) : bool :=
  if tv_sec a =? tv_sec b then tv_usec a >? tv_usec b
  else tv_sec a >? tv_sec b.

(** The duration a [timeval] denotes, in microseconds. *)
Definition micros (t : timeval) : Z := tv_sec t * 1000000 + tv_usec t.

(** Well-formed timevals keep the microsecond field within one second. *)
Definition normalized (t : timeval) : Prop := 0 <= tv_usec t < 1000000.

(** A duration of [ms] milliseconds, for building concrete frames. *)
Definition of_millis (ms : Z) : timeval :=
  mkTimeval (Z.quot ms 1000) (Z.rem ms 1000 * 1000).

End Timeval.

(** ** IEEE-754 binary32, the C++ [float] *)

Module Float32.

Definition prec : Z := 24.
Definition emax : Z := 128.

Definition float : Type := spec_float.

(** Integer to [float] conversion (round to nearest, ties to even). *)
Definition of_Z (n : Z) : float := binary_normalize prec emax n 0 false.

Definition mul (x y : float) : float := SFmul prec emax x y.
Definition div (x y : float) : float := SFdiv prec emax x y.
Definition leb (x y : float) : bool := SFleb x y.

Definition zero : float := S754_zero false.

(** [1.0f]. *)
Definition one : float := S754_finite false 8388608 (-23).

(** [std::numeric_limits<float>::digits10]. *)
Definition digits10 : nat := 6.

End Float32.

(** ** [UIMediator::feedPSD]: the staleness filter on incoming PSD frames *)

Module UIMediator.
Import Timeval.

(** The two fields of [appConfig->guiConfig] that [feedPSD] reads. *)
Record GuiConfig : Type := mkGuiConfig {
  enableMsgTTL : bool;
  msgTTL : Z
}.

(** What [feedPSD] reads from a [Suscan::PSDMessage]. *)
Record PSDMessage : Type := mkPSDMessage {
  realTimeStamp : timeval;
  timeStamp : timeval;
  sampleRate : Z;
  measuredSampleRate : Z;
  looped : bool;
  psd : list Float32.float
}.

(** The members of [UIMediator] that [feedPSD] owns. *)
Record MediatorState : Type := mkMediatorState {
  haveRtDelta : bool;
  rtDelta : timeval
}.

(** Calls [feedPSD] makes on the rest of the mediator and on its widgets. *)
Inductive Call : Type :=
| SetSampleRate (rate : Z)
| SetProcessRate (rate : Z)
| AveragerFeed (msg : PSDMessage)
| SpectrumFeed (stamp : timeval) (hasLooped : bool).

(** The block guarded by [guiConfig.enableMsgTTL]: updates the delay
    estimate and computes [expired].  [now] is what [gettimeofday]
    returned. *)
Definition checkExpired (cfg : GuiConfig) (now : timeval) (msg : PSDMessage)
    (st : MediatorState) : MediatorState * bool :=
  if enableMsgTTL cfg then
    let max_delta :=
      mkTimeval (Z.quot (msgTTL cfg) 1000) (Z.rem (msgTTL cfg) 1000 * 1000) in
    let rttime := realTimeStamp msg in
    if negb (haveRtDelta st) then
      (mkMediatorState true (timersub now rttime), false)
    else
      let diff := timersub now rttime in
      let delta := if timercmp_gt (rtDelta st) diff then diff else rtDelta st in
      let diff := timersub diff delta in
      (mkMediatorState (haveRtDelta st) delta, timercmp_gt diff max_delta)
  else (st, false).

Definition feedPSD (cfg : GuiConfig) (now : timeval) (msg : PSDMessage)
    (st : MediatorState) : MediatorState * list Call :=
  let '(st', expired) := checkExpired cfg now msg st in
  (st',
   SetSampleRate (sampleRate msg) ::
   (if negb expired then
      [ SetProcessRate (measuredSampleRate msg);
        AveragerFeed msg;
        SpectrumFeed (timeStamp msg) (looped msg) ]
    else [])).

(** A frame is accepted when its spectrum reaches the display. *)
Definition isSpectrumFeed (c : Call) : bool :=
  match c with SpectrumFeed _ _ => true | _ => false end.

Definition isSetProcessRate (c : Call) : bool :=
  match c with SetProcessRate _ => true | _ => false end.

Definition accepted (calls : list Call) : bool := existsb isSpectrumFeed calls.

(** A session: frames fed one after the other, each with the clock reading
    at its arrival. *)
Definition Frame : Type := (timeval * PSDMessage)%type.

Fixpoint feedAll (cfg : GuiConfig) (frames : list Frame) (st : MediatorState)
    : MediatorState * list (list Call) :=
  match frames with
  | [] => (st, [])
  | (now, msg) :: rest =>
      let '(st1, calls) := feedPSD cfg now msg st in
      let '(st2, trace) := feedAll cfg rest st1 in
      (st2, calls :: trace)
  end.

(** State at the start of a session. *)
Definition freshSession : MediatorState :=
  mkMediatorState false (mkTimeval 0 0).

Definition frameWellFormed (f : Frame) : Prop :=
  normalized (fst f) /\ normalized (realTimeStamp (snd f)).

(** The delay estimate held by the mediator, in microseconds. *)
Definition minDelayOf (st : MediatorState) : option Z :=
  if haveRtDelta st then Some (micros (rtDelta st)) else None.

(** The delay estimate, once taken, is a normalized [timeval]. *)
Definition estimateNormalized (st : MediatorState) : Prop :=
  haveRtDelta st = true -> normalized (rtDelta st).

(** Observed delay of a frame, in microseconds. *)
Definition observedDelay (f : Frame) : Z :=
  micros (fst f) - micros (realTimeStamp (snd f)).

(** A frame that arrives [delayMs] milliseconds after its capture stamp. *)
Definition frameWithDelay (delayMs : Z) : Frame :=
  (of_millis (1000000 + delayMs),
   mkPSDMessage (of_millis 1000000) (of_millis 1000000) 250000 240000 false []).

End UIMediator.

(** ** The staleness filter as the specification words it (section 4.2) *)

Module StalenessFilter.

(** One step: [minObservedDelay] is [None] before the first frame.  Returns
    the new estimate and whether the frame is accepted. *)
Definition step (maxAllowedLag : Z) (minObservedDelay : option Z)
    (observedDelay : Z) : option Z * bool :=
  match minObservedDelay with
  | None => (Some observedDelay, true)
  | Some m =>
      let m' := if observedDelay <? m then observedDelay else m in
      let excessDelay := observedDelay - m' in
      (Some m', excessDelay <=? maxAllowedLag)
  end.

Fixpoint run (maxAllowedLag : Z) (minObservedDelay : option Z)
    (delays : list Z) : option Z * list bool :=
  match delays with
  | [] => (minObservedDelay, [])
  | d :: rest =>
      let '(m1, ok) := step maxAllowedLag minObservedDelay d in
      let '(m2, oks) := run maxAllowedLag m1 rest in
      (m2, ok :: oks)
  end.

End StalenessFilter.

(** ** Widgets of the panoramic dialog *)

Module Widgets.

(** Modelled from the spec: the widget class of [rangeStartSpin] and
    [rangeEndSpin] is declared in the dialog's form (ui_PanoramicDialog.h),
    which is not available.  The specification has the range clamped to the
    device bounds; the record below is a spin box in the way of Qt's
    [QDoubleSpinBox]: the value is kept within [minimum, maximum], and a
    change of either limit keeps the range non-empty and re-clamps the
    value. *)
Record SpinBox : Type := mkSpinBox {
  sb_value : Z;
  sb_minimum : Z;
  sb_maximum : Z
}.

Definition sb_bound (s : SpinBox) (v : Z) : Z :=
  let v := if v <? sb_minimum s then sb_minimum s else v in
  if v >? sb_maximum s then sb_maximum s else v.

Definition sb_setValue (v : Z) (s : SpinBox) : SpinBox :=
  mkSpinBox (sb_bound s v) (sb_minimum s) (sb_maximum s).

Definition sb_setRange (lo hi : Z) (s : SpinBox) : SpinBox :=
  sb_setValue (sb_value s)
    (mkSpinBox (sb_value s) lo (if lo <? hi then hi else lo)).

Definition sb_setMinimum (lo : Z) (s : SpinBox) : SpinBox :=
  sb_setRange lo (if sb_maximum s >? lo then sb_maximum s else lo) s.

Definition sb_setMaximum (hi : Z) (s : SpinBox) : SpinBox :=
  sb_setRange (if sb_minimum s <? hi then sb_minimum s else hi) hi s.

(** The nearest value to [v] within [lo, hi]. *)
Definition clamp (lo hi v : Z) : Z := Z.max lo (Z.min hi v).

(** A checkable push button with its caption. *)
Record Button : Type := mkButton {
  isChecked : bool;
  buttonText : string
}.

(** The waterfall widget, as far as the dialog uses it.  The widget lives in
    another library; the handlers are written against this interface and
    every statement about them holds for each implementation. *)
Class Waterfall (W : Type) : Type := {
  getCenterFreq : W -> Z;
  getFftCenterFreq : W -> Z;
  getSpanFreq : W -> Z;
  setCenterFreq : Z -> W -> W;
  setSampleRate : Z -> W -> W;
  setSpanFreq : Z -> W -> W;
  setFreqUnits : Z -> W -> W;
  setLocked : bool -> W -> W;
  setDemodRanges : Z -> Z -> Z -> Z -> bool -> W -> W;
  setHiLowCutFrequencies : Z -> Z -> W -> W;
  resetHorizontalZoom : W -> W;
  setRunningState : bool -> W -> W
}.

(** A waterfall made of plain fields, on which the handlers can be run:
    setters store their arguments, and resetting the horizontal zoom
    re-centres the view and restores the span to the sample rate. *)
Record PlainWaterfall : Type := mkPlainWaterfall {
  pw_centerFreq : Z;
  pw_fftCenterFreq : Z;
  pw_spanFreq : Z;
  pw_sampleRate : Z;
  pw_freqUnits : Z;
  pw_locked : bool;
  pw_demodRanges : Z * Z * Z * Z * bool;
  pw_hiLowCut : Z * Z;
  pw_running : bool
}.

#[export] Instance PlainWaterfall_Waterfall : Waterfall PlainWaterfall := {
  getCenterFreq := pw_centerFreq;
  getFftCenterFreq := pw_fftCenterFreq;
  getSpanFreq := pw_spanFreq;
  setCenterFreq f w :=
    mkPlainWaterfall f (pw_fftCenterFreq w) (pw_spanFreq w) (pw_sampleRate w)
      (pw_freqUnits w) (pw_locked w) (pw_demodRanges w) (pw_hiLowCut w)
      (pw_running w);
  setSampleRate r w :=
    mkPlainWaterfall (pw_centerFreq w) (pw_fftCenterFreq w) (pw_spanFreq w) r
      (pw_freqUnits w) (pw_locked w) (pw_demodRanges w) (pw_hiLowCut w)
      (pw_running w);
  setSpanFreq s w :=
    mkPlainWaterfall (pw_centerFreq w) (pw_fftCenterFreq w) s (pw_sampleRate w)
      (pw_freqUnits w) (pw_locked w) (pw_demodRanges w) (pw_hiLowCut w)
      (pw_running w);
  setFreqUnits u w :=
    mkPlainWaterfall (pw_centerFreq w) (pw_fftCenterFreq w) (pw_spanFreq w)
      (pw_sampleRate w) u (pw_locked w) (pw_demodRanges w) (pw_hiLowCut w)
      (pw_running w);
  setLocked b w :=
    mkPlainWaterfall (pw_centerFreq w) (pw_fftCenterFreq w) (pw_spanFreq w)
      (pw_sampleRate w) (pw_freqUnits w) b (pw_demodRanges w) (pw_hiLowCut w)
      (pw_running w);
  setDemodRanges a b c d e w :=
    mkPlainWaterfall (pw_centerFreq w) (pw_fftCenterFreq w) (pw_spanFreq w)
      (pw_sampleRate w) (pw_freqUnits w) (pw_locked w) (a, b, c, d, e)
      (pw_hiLowCut w) (pw_running w);
  setHiLowCutFrequencies lo hi w :=
    mkPlainWaterfall (pw_centerFreq w) (pw_fftCenterFreq w) (pw_spanFreq w)
      (pw_sampleRate w) (pw_freqUnits w) (pw_locked w) (pw_demodRanges w)
      (lo, hi) (pw_running w);
  resetHorizontalZoom w :=
    mkPlainWaterfall (pw_centerFreq w) 0 (pw_sampleRate w) (pw_sampleRate w)
      (pw_freqUnits w) (pw_locked w) (pw_demodRanges w) (pw_hiLowCut w)
      (pw_running w);
  setRunningState b w :=
    mkPlainWaterfall (pw_centerFreq w) (pw_fftCenterFreq w) (pw_spanFreq w)
      (pw_sampleRate w) (pw_freqUnits w) (pw_locked w) (pw_demodRanges w)
      (pw_hiLowCut w) b
}.

End Widgets.

(** ** What the dialog reads from a [Suscan::Source::Device] *)

Module Device.

Record Device : Type := mkDevice {
  getDesc : string;
  getDriver : string;
  getMinFreq : Z;
  getMaxFreq : Z
}.

End Device.

(** ** [PanoramicDialog]: range, zoom, pan and scan handlers *)

Module PanoramicDialog.
Import Widgets.
Abbreviation Device := Device.Device.
Abbreviation mkDevice := Device.mkDevice.


(** The widgets of [Ui::PanoramicDialog] that the handlers below touch. *)
Record Ui (W : Type) : Type := mkUi {
  waterfall : W;
  rangeStartSpin : SpinBox;
  rangeEndSpin : SpinBox;
  lnbDoubleSpinBox : Z;
  fullRangeCheck : bool;
  relBwSlider : Z;
  scanButton : Button;
  deviceCombo : string
}.

Arguments mkUi {W}.
Arguments waterfall {W}.
Arguments rangeStartSpin {W}.
Arguments rangeEndSpin {W}.
Arguments lnbDoubleSpinBox {W}.
Arguments fullRangeCheck {W}.
Arguments relBwSlider {W}.
Arguments scanButton {W}.
Arguments deviceCombo {W}.

(** The dialog: its form and the data members the handlers use.
    [minBwForZoom] is declared in the absent header; it is assigned from the
    [quint64] argument of [setMinBwForZoom] and cast to [qint64] where a
    signed value is needed, and is taken to be a [quint64]. *)
Record Dialog (W : Type) : Type := mkDialog {
  ui : Ui W;
  deviceMap : gmap string Device;
  bannedDevice : string;
  adjustingRange : bool;
  fixedFreqMode : bool;
  minBwForZoom : Z;
  currBw : Z
}.

Arguments mkDialog {W}.
Arguments ui {W}.
Arguments deviceMap {W}.
Arguments bannedDevice {W}.
Arguments adjustingRange {W}.
Arguments fixedFreqMode {W}.
Arguments minBwForZoom {W}.
Arguments currBw {W}.

(** Signals the dialog emits and dialogs it shows. *)
Inductive Event : Type :=
| EvStart
| EvStop
| EvDetailChanged (min max : Z) (fixedFreq : bool)
| EvCritical (title text : string).

Definition isDetailChanged (e : Event) : bool :=
  match e with EvDetailChanged _ _ _ => true | _ => false end.

Definition isStart (e : Event) : bool :=
  match e with EvStart => true | _ => false end.

Definition isCritical (e : Event) : bool :=
  match e with EvCritical _ _ => true | _ => false end.

(** [static_cast<qint64>] of a [quint64]. *)
Definition to_qint64 (n : Z) : Z :=
  if n <? 2 ^ 63 then n else n - 2 ^ 64.

Section Handlers.
Context {W : Type} `{Waterfall W}.

(** *** Field updates *)

Definition setUi (u : Ui W) (d : Dialog W) : Dialog W :=
  mkDialog u (deviceMap d) (bannedDevice d) (adjustingRange d)
    (fixedFreqMode d) (minBwForZoom d) (currBw d).

Definition setAdjustingRange (b : bool) (d : Dialog W) : Dialog W :=
  mkDialog (ui d) (deviceMap d) (bannedDevice d) b
    (fixedFreqMode d) (minBwForZoom d) (currBw d).

Definition setFixedFreqMode (b : bool) (d : Dialog W) : Dialog W :=
  mkDialog (ui d) (deviceMap d) (bannedDevice d) (adjustingRange d)
    b (minBwForZoom d) (currBw d).

Definition setCurrBw (bw : Z) (d : Dialog W) : Dialog W :=
  mkDialog (ui d) (deviceMap d) (bannedDevice d) (adjustingRange d)
    (fixedFreqMode d) (minBwForZoom d) bw.

Definition onWaterfall (f : W -> W) (d : Dialog W) : Dialog W :=
  let u := ui d in
  setUi (mkUi (f (waterfall u)) (rangeStartSpin u) (rangeEndSpin u)
           (lnbDoubleSpinBox u) (fullRangeCheck u) (relBwSlider u)
           (scanButton u) (deviceCombo u)) d.

Definition onRangeStartSpin (f : SpinBox -> SpinBox) (d : Dialog W)
    : Dialog W :=
  let u := ui d in
  setUi (mkUi (waterfall u) (f (rangeStartSpin u)) (rangeEndSpin u)
           (lnbDoubleSpinBox u) (fullRangeCheck u) (relBwSlider u)
           (scanButton u) (deviceCombo u)) d.

Definition onRangeEndSpin (f : SpinBox -> SpinBox) (d : Dialog W)
    : Dialog W :=
  let u := ui d in
  setUi (mkUi (waterfall u) (rangeStartSpin u) (f (rangeEndSpin u))
           (lnbDoubleSpinBox u) (fullRangeCheck u) (relBwSlider u)
           (scanButton u) (deviceCombo u)) d.

Definition onScanButton (f : Button -> Button) (d : Dialog W) : Dialog W :=
  let u := ui d in
  setUi (mkUi (waterfall u) (rangeStartSpin u) (rangeEndSpin u)
           (lnbDoubleSpinBox u) (fullRangeCheck u) (relBwSlider u)
           (f (scanButton u)) (deviceCombo u)) d.

(** *** Getters *)

Definition getLnbOffset (d : Dialog W) : Z := lnbDoubleSpinBox (ui d).

Definition getMinFreq (d : Dialog W) : Z := sb_value (rangeStartSpin (ui d)).

Definition getMaxFreq (d : Dialog W) : Z := sb_value (rangeEndSpin (ui d)).

(** [getRelBw]: [relBwSlider->value() / 100.f], a [float] division. *)
Definition getRelBw (d : Dialog W) : Float32.float :=
  Float32.div (Float32.of_Z (relBwSlider (ui d))) (Float32.of_Z 100).

Definition setBannedDevice (desc : string) (d : Dialog W) : Dialog W :=
  mkDialog (ui d) (deviceMap d) desc (adjustingRange d)
    (fixedFreqMode d) (minBwForZoom d) (currBw d).

Definition setMinBwForZoom (bw : Z) (d : Dialog W) : Dialog W :=
  mkDialog (ui d) (deviceMap d) (bannedDevice d) (adjustingRange d)
    (fixedFreqMode d) bw (currBw d).

(** [getSelectedDevice]: the device is returned through a reference and
    left as it was when the combo text names no known device. *)
Definition getSelectedDevice (d : Dialog W) : option Device :=
  deviceMap d !! deviceCombo (ui d).

(** *** [setWfRange] *)

Definition setWfRange (freqStart freqEnd : Z) (d : Dialog W) : Dialog W :=
  if fixedFreqMode d then
    let bw := to_qint64 (minBwForZoom d) in
    if negb (bw =? currBw d) then
      setCurrBw bw (onWaterfall (setSampleRate bw) d)
    else d
  else
    let fc := Z.quot (freqEnd + freqStart) 2 in
    let bw := freqEnd - freqStart in
    let d := onWaterfall (setCenterFreq fc) d in
    if negb (bw =? currBw d) then
      let demodBw := Z.quot bw 10 in
      let d := onWaterfall (setLocked false) d in
      let d := onWaterfall (setSampleRate bw) d in
      let d :=
        onWaterfall (setDemodRanges (Z.quot (- bw) 2) 0 0 (Z.quot bw 2) true) d in
      let demodBw := if demodBw >? 4000000000 then 4000000000 else demodBw in
      let d :=
        onWaterfall
          (setHiLowCutFrequencies (Z.quot (- demodBw) 2) (Z.quot demodBw 2)) d in
      let d := onWaterfall resetHorizontalZoom d in
      setCurrBw bw d
    else d.

(** *** [adjustRanges], [invalidRange], [getFrequencyUnits], [setRanges] *)

Definition getFrequencyUnits (freq : Z) : Z :=
  let freq := if freq <? 0 then - freq else freq in
  if freq <? 1000 then 1
  else if freq <? 1000000 then 1000
  else if freq <? 1000000000 then 1000000
  else 1000000000.

Definition adjustRanges (d : Dialog W) : Dialog W :=
  let minFreq := sb_value (rangeStartSpin (ui d)) in
  let maxFreq := sb_value (rangeEndSpin (ui d)) in
  let d :=
    if sb_value (rangeStartSpin (ui d)) >? sb_value (rangeEndSpin (ui d)) then
      let val := sb_value (rangeStartSpin (ui d)) in
      let d :=
        onRangeStartSpin (sb_setValue (sb_value (rangeEndSpin (ui d)))) d in
      onRangeEndSpin (sb_setValue val) d
    else d in
  let d := onWaterfall (setFreqUnits (getFrequencyUnits maxFreq)) d in
  let d := onWaterfall (setSpanFreq (maxFreq - minFreq)) d in
  onWaterfall (setCenterFreq (Z.quot (maxFreq + minFreq) 2)) d.

Definition invalidRange (d : Dialog W) : bool :=
  Z.abs (sb_value (rangeEndSpin (ui d)) - sb_value (rangeStartSpin (ui d))) <? 1.

Definition setRanges (dev : Device) (d : Dialog W) : Dialog W :=
  let minFreq := Device.getMinFreq dev + getLnbOffset d in
  let maxFreq := Device.getMaxFreq dev + getLnbOffset d in
  let d := onRangeStartSpin (sb_setMinimum minFreq) d in
  let d := onRangeStartSpin (sb_setMaximum maxFreq) d in
  let d := onRangeEndSpin (sb_setMinimum minFreq) d in
  let d := onRangeEndSpin (sb_setMaximum maxFreq) d in
  let d :=
    if invalidRange d || fullRangeCheck (ui d) then
      let d := onRangeStartSpin (sb_setValue minFreq) d in
      onRangeEndSpin (sb_setValue maxFreq) d
    else d in
  adjustRanges d.



(** *** [onToggleScan] *)

Definition onToggleScan (defaultDevice : Device) (d : Dialog W)
    : Dialog W * list Event :=
  let '(d, events) :=
    if isChecked (scanButton (ui d)) then
      let dev :=
        match getSelectedDevice d with
        | Some dev => dev
        | None => defaultDevice
        end in
      if (0 <? Z.of_nat (String.length (bannedDevice d)))
         && bool_decide (Device.getDesc dev = bannedDevice d) then
        (onScanButton (fun b => mkButton false (buttonText b)) d,
         [EvCritical "Panoramic spectrum error error"
            "Scan cannot start because the selected device is in use by the main window."])
      else (d, [EvStart])
    else (d, [EvStop]) in
  let d := onWaterfall (setRunningState (isChecked (scanButton (ui d)))) d in
  let d :=
    onScanButton
      (fun b => mkButton (isChecked b)
                  (if isChecked (scanButton (ui d)) then "Stop"
                   else "Start scan")) d in
  (d, events).

(** *** [onNewZoomLevel] *)

(** The two reinjection branches and the two hard clamps of
    [onNewZoomLevel]: from the requested window and the range limits to the
    window and the [adjLeft], [adjRight] flags. *)
Definition reinjectWindow (lo hi min max : Z) : Z * Z * bool * bool :=
  let '(min, max, adjLeft, adjRight) :=
    if (min <? lo) && (max <=? hi) then
      let extra := lo - min in
      (min + extra, max + extra, true, true)
    else if (min >=? lo) && (max >? hi) then
      let extra := max - hi in
      (min - extra, max - extra, true, true)
    else (min, max, false, false) in
  let '(min, adjLeft) := if min <? lo then (lo, true) else (min, adjLeft) in
  let '(max, adjRight) := if max >? hi then (hi, true) else (max, adjRight) in
  (min, max, adjLeft, adjRight).

(** [max - min <= minBwForZoom * getRelBw()]: the product of a [quint64]
    and a [float] is a [float], and so is the comparison. *)
Definition belowZoomThreshold (width : Z) (d : Dialog W) : bool :=
  Float32.leb (Float32.of_Z width)
    (Float32.mul (Float32.of_Z (minBwForZoom d)) (getRelBw d)).

(** The width of the window a zoom request arrives at after reinjection:
    the tentative width that decides the mode. *)
Definition tentativeWidth (d : Dialog W) : Z :=
  let fc :=
    getCenterFreq (waterfall (ui d)) + getFftCenterFreq (waterfall (ui d)) in
  let span := getSpanFreq (waterfall (ui d)) in
  let '(min, max, _, _) :=
    reinjectWindow (getMinFreq d) (getMaxFreq d)
      (fc - Z.quot span 2) (fc + Z.quot span 2) in
  max - min.

Definition onNewZoomLevel (d : Dialog W) : Dialog W * list Event :=
  let fc :=
    getCenterFreq (waterfall (ui d)) + getFftCenterFreq (waterfall (ui d)) in
  let span := getSpanFreq (waterfall (ui d)) in
  if negb (adjustingRange d) then
    let d := setAdjustingRange true d in
    let min := fc - Z.quot span 2 in
    let max := fc + Z.quot span 2 in
    let '(min, max, adjLeft, adjRight) :=
      reinjectWindow (getMinFreq d) (getMaxFreq d) min max in
    let d :=
      if adjLeft && adjRight then onWaterfall resetHorizontalZoom d else d in
    let d := setFixedFreqMode (belowZoomThreshold (max - min) d) d in
    let '(min, max) :=
      if fixedFreqMode d then
        let fc := getCenterFreq (waterfall (ui d)) in
        (fc - Z.quot span 2, fc + Z.quot span 2)
      else (min, max) in
    let d := setWfRange min max d in
    let d := setAdjustingRange false d in
    (d, [EvDetailChanged min max (fixedFreqMode d)])
  else (d, []).

(** *** [onNewCenterFreq] *)

(** The window computed by [onNewCenterFreq] from the range limits, the
    current bandwidth and the requested centre, and whether either border
    was reached. *)
Definition panWindow (lo hi span freq : Z) : Z * Z * bool :=
  let min := freq - Z.quot span 2 in
  let max := freq + Z.quot span 2 in
  let leftBorder := min <=? lo in
  let min := if leftBorder then lo else min in
  let rightBorder := max >=? hi in
  let max := if rightBorder then hi else max in
  if rightBorder || leftBorder then
    let '(min, max) :=
      if leftBorder && negb rightBorder then (min, min + span)
      else if rightBorder && negb leftBorder then (max - span, max)
      else (min, max) in
    (min, max, true)
  else (min, max, false).

Definition onNewCenterFreq (freq : Z) (d : Dialog W) : Dialog W * list Event :=
  let '(min, max, atBorder) :=
    panWindow (getMinFreq d) (getMaxFreq d) (currBw d) freq in
  let d :=
    if atBorder then onWaterfall (setCenterFreq (Z.quot (max + min) 2)) d
    else d in
  (d, [EvDetailChanged min max (fixedFreqMode d)]).

End Handlers.

(** Both range spin boxes carry the limits [lo, hi] and hold values within
    them. *)
Definition limitsInstalled {W : Type} (lo hi : Z) (d : Dialog W) : Prop :=
  rangeStartSpin (ui d)
    = mkSpinBox (sb_value (rangeStartSpin (ui d))) lo hi
  /\ rangeEndSpin (ui d)
    = mkSpinBox (sb_value (rangeEndSpin (ui d))) lo hi
  /\ lo <= sb_value (rangeStartSpin (ui d)) <= hi
  /\ lo <= sb_value (rangeEndSpin (ui d)) <= hi.

(** *** Concrete dialogs, for running the handlers *)

Definition plainWaterfall (center fftCenter span : Z) : PlainWaterfall :=
  mkPlainWaterfall center fftCenter span span 1 false (0, 0, 0, 0, false)
    (0, 0) false.

(** A dialog over the range [lo, hi] (also the spin-box limits), with the
    waterfall at [center] + [fftCenter] showing [span]. *)
Definition plainDialog (lo hi center fftCenter span : Z)
    (relBw minBw bw : Z) (fixedFreq : bool) : Dialog PlainWaterfall :=
  mkDialog
    (mkUi (plainWaterfall center fftCenter span)
       (mkSpinBox lo lo hi) (mkSpinBox hi lo hi) 0 false relBw
       (mkButton false "Start scan") "")
    ∅ "" false fixedFreq minBw bw.

Definition rtlsdr : Device := mkDevice "RTL-SDR" "rtlsdr" 24000000 1766000000.

Definition noDevice : Device := mkDevice "" "" 0 0.

(** A dialog whose scan button has just been pressed, with [rtlsdr]
    selected and [banned] as the banned device. *)
Definition scanRequested (banned : string) : Dialog PlainWaterfall :=
  mkDialog
    (mkUi (plainWaterfall 100000000 0 2400000)
       (mkSpinBox 24000000 24000000 1766000000)
       (mkSpinBox 1766000000 24000000 1766000000) 0 true 100
       (mkButton true "Start scan") "RTL-SDR")
    {[ "RTL-SDR" := rtlsdr ]} banned false false 2400000 0.

End PanoramicDialog.

(** ** [SavedSpectrum] and its export *)

Module SavedSpectrum.

Record SavedSpectrum : Type := mkSavedSpectrum {
  start : Z;
  end_ : Z;
  data : list Float32.float
}.

(** [SavedSpectrum::set]. *)
Definition set (start end_ : Z) (samples : list Float32.float)
    (s : SavedSpectrum) : SavedSpectrum :=
  mkSavedSpectrum start end_ samples.

(** The line feed character. *)
Definition nl : string := String (Ascii.ascii_of_nat 10) EmptyString.

(** An output file stream: the text written so far and the precision used
    for floating-point insertion. *)
Record ofstream : Type := mkOfstream {
  written : string;
  precision : nat
}.

(** A freshly opened stream; six is the default precision of a stream. *)
Definition opened : ofstream := mkOfstream "" 6.

Definition put (text : string) (o : ofstream) : ofstream :=
  mkOfstream (written o +:+ text) (precision o).

(** [of << n] for a [qint64]. *)
Definition putInt (n : Z) (o : ofstream) : ofstream := put (pretty n) o.

(** [of << std::setprecision(n)]. *)
Definition setprecision (n : nat) (o : ofstream) : ofstream :=
  mkOfstream (written o) n.

(** The files of the machine: their contents, and which paths can be
    opened for writing. *)
Record FileSystem : Type := mkFileSystem {
  contents : gmap string string;
  canOpenForWriting : string -> bool
}.

Section ExportToFile.

(** [of << p] for a [float]: the text the stream library produces at a given
    precision. *)
Variable showFloat : nat -> Float32.float -> string.

Definition putFloat (p : Float32.float) (o : ofstream) : ofstream :=
  put (showFloat (precision o) p) o.

(** The loop [for (auto p : this->data) of << p << " "]. *)
Fixpoint putSamples (samples : list Float32.float) (o : ofstream) : ofstream :=
  match samples with
  | [] => o
  | p :: rest => putSamples rest (put " " (putFloat p o))
  end.

Definition exportToFile (path : string) (s : SavedSpectrum) (fs : FileSystem)
    : bool * FileSystem :=
  if negb (canOpenForWriting fs path) then (false, fs)
  else
    let out := opened in
    let out := put ("%" +:+ nl) out in
    let out := put ("% Panoramic Spectrum file generated by SigDigger" +:+ nl) out in
    let out := put ("%" +:+ nl +:+ nl) out in
    let out := put (";" +:+ nl) (putInt (start s) (put "freqMin = " out)) in
    let out := put (";" +:+ nl) (putInt (end_ s) (put "freqMax = " out)) in
    let out := put "PSD = [ " out in
    let out := setprecision Float32.digits10 out in
    let out := putSamples (data s) out in
    let out := put ("];" +:+ nl) out in
    (true, mkFileSystem (<[path := written out]> (contents fs))
             (canOpenForWriting fs)).



End ExportToFile.

End SavedSpectrum.

(** ** [PanoramicDialogConfig]: the persisted gains *)

Module PanoramicDialogConfig.

Record PanoramicDialogConfig : Type := mkConfig {
  fullRange : bool;
  rangeMin : Z;
  rangeMax : Z;
  lnbFreq : Z;
  device : string;
  antenna : string;
  sampRate : Z;
  strategy : string;
  partitioning : string;
  palette : string;
  gains : gmap string Float32.float
}.

Definition fullName (dev name : string) : string :=
  "gain." +:+ dev +:+ "." +:+ name.

Definition hasGain (dev name : string) (c : PanoramicDialogConfig) : bool :=
  match gains c !! fullName dev name with
  | Some _ => true
  | None => false
  end.

Definition getGain (dev name : string) (c : PanoramicDialogConfig)
    : Float32.float :=
  match gains c !! fullName dev name with
  | None => Float32.zero
  | Some v => v
  end.

Definition setGain (dev name : string) (val : Float32.float)
    (c : PanoramicDialogConfig) : PanoramicDialogConfig :=
  mkConfig (fullRange c) (rangeMin c) (rangeMax c) (lnbFreq c) (device c)
    (antenna c) (sampRate c) (strategy c) (partitioning c) (palette c)
    (<[fullName dev name := val]> (gains c)).

End PanoramicDialogConfig.

(** ** More of [PanoramicDialog]: the LNB slot, the end of [run] and the device list *)

Module DialogSlots.
Import Widgets PanoramicDialog.

Section Handlers.
Context {W : Type} `{Waterfall W}.

(** [onLnbOffsetChanged]. *)
Definition onLnbOffsetChanged (d : Dialog W) : Dialog W :=
  match getSelectedDevice d with
  | Some dev => setRanges dev d
  | None => d
  end.

(** What [run] does once [exec] has returned, [saveConfig] apart (it writes
    to the configuration only): the scan button is released, [onToggleScan]
    runs, and [stop] is emitted. *)
Definition runAfterExec (defaultDevice : Device) (d : Dialog W)
    : Dialog W * list Event :=
  let d := onScanButton (fun b => mkButton false (buttonText b)) d in
  let '(d, events) := onToggleScan defaultDevice d in
  (d, events ++ [EvStop]).

End Handlers.

(** The test of [populateDeviceCombo] that a device must pass to be
    listed. *)
Definition listed (isAvailable : Device -> bool) (i : Device) : bool :=
  (Device.getMaxFreq i >? 0) && isAvailable i.

(** The loop of [populateDeviceCombo] over the devices the library knows:
    the device map and the combo items it builds, both cleared first.
    Whether a device is available is the library's answer. *)
Fixpoint populateDevices (isAvailable : Device -> bool) (devices : list Device)
    (deviceMap : gmap string Device) (items : list string)
    : gmap string Device * list string :=
  match devices with
  | [] => (deviceMap, items)
  | i :: rest =>
      if listed isAvailable i then
        let name := Device.getDesc i in
        populateDevices isAvailable rest (<[name := i]> deviceMap)
          (items ++ [name])
      else populateDevices isAvailable rest deviceMap items
  end.

(** [populateDeviceCombo] as far as the device map and the combo items go;
    [onDeviceChanged] and [refreshUi], which it ends with, change
    neither. *)
Definition populateDeviceCombo (isAvailable : Device -> bool)
    (devices : list Device) : gmap string Device * list string :=
  populateDevices isAvailable devices ∅ [].

End DialogSlots.

(** ** More of [PanoramicDialogConfig] and the gain controls *)

Module Gains.
Import PanoramicDialogConfig.

(** [name.substr(0, 5) == "gain."]. *)
Definition isGainField (name : string) : bool :=
  bool_decide (String.substring 0 5 name = "gain.").

(** The loop that closes [deserialize]: every field of the object whose
    name begins with "gain." is read as a float (0 when it cannot be) and
    stored under its name.  [fieldNames] are the names of the object's fields
    in index order, [getFloat] is the object's [get(name, default)]. *)
Fixpoint deserializeGains (getFloat : string -> Float32.float -> Float32.float)
    (fieldNames : list string) (gains : gmap string Float32.float)
    : gmap string Float32.float :=
  match fieldNames with
  | [] => gains
  | name :: rest =>
      deserializeGains getFloat rest
        (if isGainField name
         then <[name := getFloat name Float32.zero]> gains
         else gains)
  end.

(** The configuration after that loop; the [LOAD] lines before it do not
    touch the gains. *)
Definition loadGains (getFloat : string -> Float32.float -> Float32.float)
    (fieldNames : list string) (c : PanoramicDialogConfig)
    : PanoramicDialogConfig :=
  mkConfig (fullRange c) (rangeMin c) (rangeMax c) (lnbFreq c) (device c)
    (antenna c) (sampRate c) (strategy c) (partitioning c) (palette c)
    (deserializeGains getFloat fieldNames (gains c)).

(** What [refreshGains] and [onGainChanged] read from a gain description of
    the device. *)
Record GainDescription : Type := mkGainDescription {
  gainName : string;
  gainDefault : Float32.float
}.

(** The controls [refreshGains] creates, in order: for each gain of the
    device, its name and the value handed to the new control's [setGain]. *)
Definition refreshGains (driver : string) (descriptions : list GainDescription)
    (c : PanoramicDialogConfig) : list (string * Float32.float) :=
  map (fun p =>
         (gainName p,
          if hasGain driver (gainName p) c
          then getGain driver (gainName p) c
          else gainDefault p))
    descriptions.

(** The configuration part of [onGainChanged]: [selected] is the driver of
    the selected device, if the combo names one. *)
Definition onGainChanged (selected : option string) (name : string)
    (val : Float32.float) (c : PanoramicDialogConfig) : PanoramicDialogConfig :=
  match selected with
  | Some driver => setGain driver name val c
  | None => c
  end.

End Gains.

(** ** [onExport]: asking for a destination until the export succeeds *)

Module ExportDialog.
Import SavedSpectrum.

Section OnExport.
Variable showFloat : nat -> Float32.float -> string.

(** The do-while loop of [onExport].  Each round shows a file dialog;
    [answers] are the user's answers, in order: [None] when the dialog is
    dismissed, [Some path] when a file is chosen.  A failed export shows one
    warning and asks again.  The result is the file system and the number of
    warnings shown, or [None] while the answers given so far leave the
    dialog open. *)
Fixpoint onExport (answers : list (option string)) (s : SavedSpectrum)
    (fs : FileSystem) (warnings : nat) : option (FileSystem * nat) :=
  match answers with
  | [] => None
  | None :: _ => Some (fs, warnings)
  | Some path :: rest =>
      let '(ok, fs') := exportToFile showFloat path s fs in
      if negb ok then onExport rest s fs' (S warnings)
      else Some (fs', warnings)
  end.

End OnExport.

End ExportDialog.

(** ** The dialog during a scan: frames, run state and what depends on them *)

Module Session.
Import Widgets PanoramicDialog.

(** The part of the waterfall that receives the spectrum data. *)
Class WaterfallData (W : Type) : Type := {
  setNewFftData : list Float32.float -> W -> W
}.

#[export] Instance PlainWaterfall_WaterfallData : WaterfallData PlainWaterfall := {
  setNewFftData _ w := w
}.

(** Which controls accept input. *)
Record Enabled : Type := mkEnabled {
  deviceComboEnabled : bool;
  antennaComboEnabled : bool;
  fullRangeCheckEnabled : bool;
  rangeEndSpinEnabled : bool;
  rangeStartSpinEnabled : bool;
  lnbDoubleSpinBoxEnabled : bool;
  sampleRateSpinEnabled : bool;
  exportButtonEnabled : bool
}.

(** The dialog with the members and widgets that [feed], [setRunning],
    [refreshUi] and the sample-rate slot use on top of those of the range,
    zoom and pan handlers.  The frame counter and the three labels that
    [redrawMeasures] rewrites are not part of this state. *)
Record Panel (W : Type) : Type := mkPanel {
  dialog : Dialog W;
  dialogConfig : PanoramicDialogConfig.PanoramicDialogConfig;
  running : bool;
  freqStart : Z;
  freqEnd : Z;
  saved : SavedSpectrum.SavedSpectrum;
  sampleRateSpin : SpinBox;
  antennaCount : Z;
  enabled : Enabled
}.

Arguments mkPanel {W}.
Arguments dialog {W}.
Arguments dialogConfig {W}.
Arguments running {W}.
Arguments freqStart {W}.
Arguments freqEnd {W}.
Arguments saved {W}.
Arguments sampleRateSpin {W}.
Arguments antennaCount {W}.
Arguments enabled {W}.

(** [static_cast<int>]: a value within the range of [int] is kept. *)
Definition to_int (n : Z) : Z :=
  let r := n mod 2 ^ 32 in
  if r <? 2 ^ 31 then r else r - 2 ^ 32.

(** [dialogConfig->sampRate = rate]. *)
Definition setSampRate (rate : Z) (c : PanoramicDialogConfig.PanoramicDialogConfig)
    : PanoramicDialogConfig.PanoramicDialogConfig :=
  PanoramicDialogConfig.mkConfig
    (PanoramicDialogConfig.fullRange c) (PanoramicDialogConfig.rangeMin c)
    (PanoramicDialogConfig.rangeMax c) (PanoramicDialogConfig.lnbFreq c)
    (PanoramicDialogConfig.device c) (PanoramicDialogConfig.antenna c)
    rate
    (PanoramicDialogConfig.strategy c) (PanoramicDialogConfig.partitioning c)
    (PanoramicDialogConfig.palette c) (PanoramicDialogConfig.gains c).

Section Handlers.
Context {W : Type} `{Waterfall W} `{WaterfallData W}.

Definition onDialog (f : Dialog W -> Dialog W) (p : Panel W) : Panel W :=
  mkPanel (f (dialog p)) (dialogConfig p) (running p) (freqStart p)
    (freqEnd p) (saved p) (sampleRateSpin p) (antennaCount p) (enabled p).

Definition refreshUi (p : Panel W) : Panel W :=
  let empty := bool_decide (size (deviceMap (dialog p)) = 0%nat) in
  let fullRange := fullRangeCheck (ui (dialog p)) in
  let e :=
    mkEnabled
      (negb (running p) && negb empty)
      (negb (running p) && negb empty && negb (antennaCount p =? 0))
      (negb (running p) && negb empty)
      (negb (running p) && negb empty && negb fullRange)
      (negb (running p) && negb empty && negb fullRange)
      (negb (running p))
      (negb (running p))
      (exportButtonEnabled (enabled p)) in
  let d :=
    onScanButton (fun b => mkButton (running p) (buttonText b)) (dialog p) in
  mkPanel d (dialogConfig p) (running p) (freqStart p) (freqEnd p) (saved p)
    (sampleRateSpin p) (antennaCount p) e.

Definition onSampleRateSpinChanged (p : Panel W) : Panel W :=
  if negb (running p) then
    mkPanel (dialog p)
      (setSampRate (to_int (sb_value (sampleRateSpin p))) (dialogConfig p))
      (running p) (freqStart p) (freqEnd p) (saved p) (sampleRateSpin p)
      (antennaCount p) (enabled p)
  else p.

(** [sampleRateSpin->setValue(v)], by the program or by the user: the box
    takes the value and, when its value has changed, its [valueChanged]
    signal runs the slot connected to it, [onSampleRateSpinChanged]. *)
Definition setSampleRateSpin (v : Z) (p : Panel W) : Panel W :=
  let p' :=
    mkPanel (dialog p) (dialogConfig p) (running p) (freqStart p)
      (freqEnd p) (saved p) (sb_setValue v (sampleRateSpin p))
      (antennaCount p) (enabled p) in
  if sb_value (sampleRateSpin p') =? sb_value (sampleRateSpin p) then p'
  else onSampleRateSpinChanged p'.

(** [setRunning].  The first branch zeroes the frame counter and its label
    and leaves the rest of the state as it is; the second one puts the
    configured sample rate back into the spin box while [running] still
    holds. *)
Definition setRunning (run : bool) (p : Panel W) : Panel W :=
  let p :=
    if run && negb (running p) then p
    else if negb run && running p then
      setSampleRateSpin (PanoramicDialogConfig.sampRate (dialogConfig p)) p
    else p in
  refreshUi
    (mkPanel (dialog p) (dialogConfig p) run (freqStart p) (freqEnd p)
       (saved p) (sampleRateSpin p) (antennaCount p) (enabled p)).

Definition feed (start end_ : Z) (data : list Float32.float) (p : Panel W)
    : Panel W :=
  let p :=
    if negb (freqStart p =? start) || negb (freqEnd p =? end_) then
      let d := setAdjustingRange true (dialog p) in
      let d := setWfRange start end_ d in
      let d := setAdjustingRange false d in
      mkPanel d (dialogConfig p) (running p) start end_ (saved p)
        (sampleRateSpin p) (antennaCount p) (enabled p)
    else p in
  let e := enabled p in
  mkPanel (onWaterfall (setNewFftData data) (dialog p)) (dialogConfig p)
    (running p) (freqStart p) (freqEnd p)
    (SavedSpectrum.set start end_ data (saved p))
    (sampleRateSpin p) (antennaCount p)
    (mkEnabled (deviceComboEnabled e) (antennaComboEnabled e)
       (fullRangeCheckEnabled e) (rangeEndSpinEnabled e)
       (rangeStartSpinEnabled e) (lnbDoubleSpinBoxEnabled e)
       (sampleRateSpinEnabled e) true).

(** What happens to the dialog while a scan runs. *)
Inductive Action : Type :=
| Feed (start end_ : Z) (data : list Float32.float)
| EditSampleRate (v : Z)
| Zoom
| Pan (freq : Z).

Definition isFeed (a : Action) : bool :=
  match a with Feed _ _ _ => true | _ => false end.

Definition act (a : Action) (p : Panel W) : Panel W :=
  match a with
  | Feed start end_ data => feed start end_ data p
  | EditSampleRate v => setSampleRateSpin v p
  | Zoom => onDialog (fun d => fst (onNewZoomLevel d)) p
  | Pan freq => onDialog (fun d => fst (onNewCenterFreq freq d)) p
  end.

Definition actAll (actions : list Action) (p : Panel W) : Panel W :=
  fold_left (fun p a => act a p) actions p.

End Handlers.

(** A stopped panel around a dialog, for running the handlers. *)
Definition plainPanel (d : Dialog PlainWaterfall) (rate : Z)
    : Panel PlainWaterfall :=
  mkPanel d
    (PanoramicDialogConfig.mkConfig false 0 0 0 "" "" rate "" "" "" ∅)
    false 0 0 (SavedSpectrum.mkSavedSpectrum 0 0 [])
    (mkSpinBox rate 0 1000000000) 0
    (mkEnabled true true true true true true true false).

End Session.

(** ** Helpers for stating the properties *)

Module Delays.

(** The smallest of [d] and the elements of [ds]. *)
Definition minimum (d : Z) (ds : list Z) : Z := fold_left Z.min ds d.

End Delays.

(* ===================================================================== *)
(** * Part II: properties                                                 *)
(* ===================================================================== *)

(** Splits on the integer comparisons of the goal, innermost first. *)
Ltac zcase_step :=
  match goal with
  | |- context [Z.ltb ?a ?b] =>
      lazymatch a with context [if _ then _ else _] => fail | _ => idtac end;
      lazymatch b with context [if _ then _ else _] => fail | _ => idtac end;
      destruct (Z.ltb_spec a b)
  | |- context [Z.leb ?a ?b] =>
      lazymatch a with context [if _ then _ else _] => fail | _ => idtac end;
      lazymatch b with context [if _ then _ else _] => fail | _ => idtac end;
      destruct (Z.leb_spec a b)
  | |- context [Z.eqb ?a ?b] =>
      lazymatch a with context [if _ then _ else _] => fail | _ => idtac end;
      lazymatch b with context [if _ then _ else _] => fail | _ => idtac end;
      destruct (Z.eqb_spec a b)
  end; cbv beta iota.

Ltac zcases := rewrite ?Z.gtb_ltb, ?Z.geb_leb; repeat zcase_step.

(** ** Timer arithmetic *)

Section TimevalFacts.
Import Timeval.

Lemma timersub_normalized a b :
  normalized a -> normalized b -> normalized (timersub a b).
Proof.
  unfold normalized, timersub. intros Ha Hb.
  destruct (Z.ltb_spec (tv_usec a - tv_usec b) 0); simpl; lia.
Qed.

Lemma timersub_micros a b : micros (timersub a b) = micros a - micros b.
Proof.
  unfold micros, timersub.
  destruct (Z.ltb_spec (tv_usec a - tv_usec b) 0); simpl; lia.
Qed.

Lemma timersub_self a : timersub a a = mkTimeval 0 0.
Proof.
  unfold timersub. rewrite !Z.sub_diag. reflexivity.
Qed.

(** On normalized timevals the lexicographic comparison of the macro is the
    comparison of the durations. *)
Lemma timercmp_gt_micros a b :
  normalized a -> normalized b -> timercmp_gt a b = (micros a >? micros b).
Proof.
  unfold normalized, timercmp_gt, micros. intros Ha Hb.
  destruct (Z.eqb_spec (tv_sec a) (tv_sec b)) as [E | E].
  - rewrite E, !Z.gtb_ltb.
    destruct (Z.ltb_spec (tv_usec b) (tv_usec a));
      destruct (Z.ltb_spec (tv_sec b * 1000000 + tv_usec b)
                  (tv_sec b * 1000000 + tv_usec a)); auto; lia.
  - rewrite !Z.gtb_ltb.
    destruct (Z.ltb_spec (tv_sec b) (tv_sec a));
      destruct (Z.ltb_spec (tv_sec b * 1000000 + tv_usec b)
                  (tv_sec a * 1000000 + tv_usec a)); auto; lia.
Qed.

Lemma max_delta_normalized ms :
  0 <= ms -> normalized (mkTimeval (Z.quot ms 1000) (Z.rem ms 1000 * 1000)).
Proof.
  intros Hms. unfold normalized. simpl.
  pose proof (Z.rem_bound_pos ms 1000 Hms ltac:(lia)). lia.
Qed.

Lemma max_delta_micros ms :
  micros (mkTimeval (Z.quot ms 1000) (Z.rem ms 1000 * 1000)) = ms * 1000.
Proof.
  unfold micros. simpl. pose proof (Z.quot_rem' ms 1000). lia.
Qed.

(** Nothing is later than a non-negative time-to-live after no delay. *)
Lemma zero_not_after_max_delta ms :
  0 <= ms ->
  timercmp_gt (mkTimeval 0 0)
    (mkTimeval (Z.quot ms 1000) (Z.rem ms 1000 * 1000)) = false.
Proof.
  intros Hms. unfold timercmp_gt. cbn [tv_sec tv_usec].
  pose proof (Z.rem_bound_pos ms 1000 Hms ltac:(lia)).
  pose proof (Z.quot_pos ms 1000 Hms ltac:(lia)).
  destruct (Z.eqb_spec 0 (Z.quot ms 1000)); rewrite Z.gtb_ltb;
    apply Z.ltb_ge; lia.
Qed.

End TimevalFacts.

(** ** The staleness filter of [feedPSD] *)

Section FeedPSDFacts.
Import Timeval UIMediator.

Lemma accepted_feedPSD cfg now msg st :
  accepted (snd (feedPSD cfg now msg st))
  = negb (snd (checkExpired cfg now msg st)).
Proof.
  unfold feedPSD. destruct (checkExpired cfg now msg st) as [st' expired].
  destruct expired; reflexivity.
Qed.

Lemma fst_feedPSD cfg now msg st :
  fst (feedPSD cfg now msg st) = fst (checkExpired cfg now msg st).
Proof.
  unfold feedPSD. destruct (checkExpired cfg now msg st); reflexivity.
Qed.

(** One frame through [checkExpired] is one step of the filter of the
    specification, on durations in microseconds. *)
Lemma checkExpired_step cfg now msg st :
  enableMsgTTL cfg = true ->
  0 <= msgTTL cfg ->
  frameWellFormed (now, msg) ->
  estimateNormalized st ->
  (minDelayOf (fst (checkExpired cfg now msg st)),
   negb (snd (checkExpired cfg now msg st)))
  = StalenessFilter.step (msgTTL cfg * 1000) (minDelayOf st)
      (observedDelay (now, msg))
  /\ estimateNormalized (fst (checkExpired cfg now msg st)).
Proof.
  intros Hen Httl [Hnow Hrt] Hst. simpl in Hnow, Hrt.
  unfold checkExpired, minDelayOf, observedDelay, estimateNormalized in *.
  rewrite Hen. simpl fst. simpl snd.
  destruct (haveRtDelta st) eqn:Hhave; simpl.
  - specialize (Hst eq_refl).
    pose proof (timersub_normalized now (realTimeStamp msg) Hnow Hrt) as Hdiff.
    rewrite (timercmp_gt_micros _ _ Hst Hdiff).
    rewrite timersub_micros in *.
    set (obs := micros now - micros (realTimeStamp msg)) in *.
    rewrite Z.gtb_ltb.
    destruct (Z.ltb_spec obs (micros (rtDelta st))) as [Hlt | Hge].
    + split; [| intros _; exact Hdiff].
      rewrite timersub_self.
      rewrite (zero_not_after_max_delta _ Httl). simpl.
      rewrite timersub_micros. fold obs.
      f_equal. symmetry. apply Z.leb_le. lia.
    + split; [| intros _; exact Hst].
      rewrite timercmp_gt_micros;
        [| apply timersub_normalized; assumption
         | apply max_delta_normalized; assumption].
      rewrite !timersub_micros, max_delta_micros. fold obs.
      f_equal. rewrite Z.gtb_ltb, Z.leb_antisym. reflexivity.
  - split; [| intros _; apply timersub_normalized; assumption].
    rewrite timersub_micros. reflexivity.
Qed.

Lemma feedAll_refines_filter cfg frames : forall st,
  enableMsgTTL cfg = true ->
  0 <= msgTTL cfg ->
  Forall frameWellFormed frames ->
  estimateNormalized st ->
  (minDelayOf (fst (feedAll cfg frames st)),
   map accepted (snd (feedAll cfg frames st)))
  = StalenessFilter.run (msgTTL cfg * 1000) (minDelayOf st)
      (map observedDelay frames).
Proof.
  induction frames as [| [now msg] rest IH]; intros st Hen Httl Hwf Hst.
  - reflexivity.
  - inversion Hwf as [| f fs Hf Hrest]; subst.
    destruct (checkExpired_step cfg now msg st Hen Httl Hf Hst) as [Hstep Hinv].
    simpl feedAll. simpl map.
    pose proof (accepted_feedPSD cfg now msg st) as Hacc.
    pose proof (fst_feedPSD cfg now msg st) as Hfst.
    destruct (feedPSD cfg now msg st) as [st1 calls]. simpl in Hacc, Hfst.
    subst st1.
    specialize (IH _ Hen Httl Hrest Hinv).
    destruct (feedAll cfg rest (fst (checkExpired cfg now msg st)))
      as [st2 trace].
    simpl in IH |- *.
    change (micros now - micros (realTimeStamp msg))
      with (observedDelay (now, msg)).
    rewrite <- Hstep, <- IH, Hacc. reflexivity.
Qed.

(** C2.  With the lag filter enabled, feeding any sequence of well-formed
    frames to [feedPSD] from the start of a session accepts exactly the
    frames the filter of the specification accepts, and ends with the same
    minimum observed delay: the first frame is accepted and initializes the
    estimate to its observed delay; each later frame first lowers the
    estimate to its own delay when smaller and is then accepted if and only
    if its delay exceeds the estimate by at most the configured lag. *)
Theorem feedPSD_staleness_filter cfg frames :
  enableMsgTTL cfg = true ->
  0 <= msgTTL cfg ->
  Forall frameWellFormed frames ->
  (minDelayOf (fst (feedAll cfg frames freshSession)),
   map accepted (snd (feedAll cfg frames freshSession)))
  = StalenessFilter.run (msgTTL cfg * 1000) None (map observedDelay frames).
Proof.
  intros Hen Httl Hwf.
  apply (feedAll_refines_filter cfg frames freshSession Hen Httl Hwf).
  intros Hhave. discriminate Hhave.
Qed.

(** The scenario of the specification: delays of 100, 80, 150 and 90 ms
    under a 50 ms limit.  The estimate is 80 ms after the second frame, the
    third frame is dropped and the fourth accepted. *)
Lemma feedPSD_staleness_filter_witness :
  let cfg := mkGuiConfig true 50 in
  (enableMsgTTL cfg = true /\ 0 <= msgTTL cfg)
  /\ (minDelayOf
        (fst (feedAll cfg (map frameWithDelay [100; 80]) freshSession)),
      map accepted
        (snd (feedAll cfg (map frameWithDelay [100; 80]) freshSession)))
     = (Some 80000, [true; true])
  /\ (minDelayOf
        (fst (feedAll cfg (map frameWithDelay [100; 80; 150; 90]) freshSession)),
      map accepted
        (snd (feedAll cfg (map frameWithDelay [100; 80; 150; 90]) freshSession)))
     = (Some 80000, [true; true; false; true]).
Proof.
  assert (Hwf : Forall frameWellFormed
                  (map frameWithDelay [100; 80; 150; 90])).
  { simpl map.
    repeat (apply List.Forall_cons;
            [split; (split; [apply Z.leb_le | apply Z.ltb_lt]; reflexivity) |]).
    apply List.Forall_nil. }
  split; [split; [reflexivity | simpl; lia] |].
  split.
  - rewrite (feedPSD_staleness_filter (mkGuiConfig true 50)
               (map frameWithDelay [100; 80]));
      [reflexivity | reflexivity | simpl; lia |].
    inversion Hwf as [| f1 r1 H1 Hr1]. inversion Hr1 as [| f2 r2 H2 Hr2].
    apply List.Forall_cons; [exact H1 |].
    apply List.Forall_cons; [exact H2 | apply List.Forall_nil].
  - rewrite (feedPSD_staleness_filter (mkGuiConfig true 50)
               (map frameWithDelay [100; 80; 150; 90]));
      [reflexivity | reflexivity | simpl; lia | exact Hwf].
Defined.

End FeedPSDFacts.

Section DroppedFrames.
Import Timeval UIMediator.

(** A frame that is dropped leaves the delay estimate as it was. *)
Lemma checkExpired_dropped cfg now msg st :
  0 <= msgTTL cfg ->
  snd (checkExpired cfg now msg st) = true ->
  fst (checkExpired cfg now msg st) = st.
Proof.
  intros Httl. unfold checkExpired.
  destruct (enableMsgTTL cfg); [| discriminate].
  destruct st as [have delta]. cbn [haveRtDelta rtDelta].
  destruct have; cbn [negb fst snd]; [| discriminate].
  destruct (timercmp_gt delta (timersub now (realTimeStamp msg))).
  - rewrite timersub_self, (zero_not_after_max_delta _ Httl). discriminate.
  - reflexivity.
Qed.

(** C4, as the code has it.  A frame the staleness filter drops makes
    [feedPSD] update the nominal sample rate from the frame and do nothing
    else: the measured (process) rate, the averager and the spectrum display
    are not touched, and the filter state is unchanged. *)
Theorem dropped_frame_updates_only_sample_rate cfg now msg st :
  0 <= msgTTL cfg ->
  accepted (snd (feedPSD cfg now msg st)) = false ->
  feedPSD cfg now msg st = (st, [SetSampleRate (sampleRate msg)]).
Proof.
  intros Httl Hdrop.
  rewrite accepted_feedPSD in Hdrop. apply negb_false_iff in Hdrop.
  pose proof (checkExpired_dropped cfg now msg st Httl Hdrop) as Hst.
  unfold feedPSD.
  destruct (checkExpired cfg now msg st) as [st' expired].
  simpl in Hdrop, Hst. subst. reflexivity.
Qed.

(** A session whose estimate is 80 ms receives a frame delayed by 150 ms
    under a 50 ms limit. *)
Lemma dropped_frame_updates_only_sample_rate_witness :
  let cfg := mkGuiConfig true 50 in
  let st := mkMediatorState true (of_millis 80) in
  let now := fst (frameWithDelay 150) in
  let msg := snd (frameWithDelay 150) in
  0 <= msgTTL cfg
  /\ accepted (snd (feedPSD cfg now msg st)) = false
  /\ feedPSD cfg now msg st = (st, [SetSampleRate 250000]).
Proof.
  intros cfg st now msg.
  assert (Httl : 0 <= msgTTL cfg) by (simpl; lia).
  assert (Hdrop : accepted (snd (feedPSD cfg now msg st)) = false)
    by reflexivity.
  split; [exact Httl |]. split; [exact Hdrop |].
  exact (dropped_frame_updates_only_sample_rate cfg now msg st Httl Hdrop).
Defined.

(** C4, as stated, fails: the dropped frame declares a measured rate of
    240000, and [feedPSD] does not pass it on. *)
Lemma dropped_frame_measured_rate_not_updated :
  let cfg := mkGuiConfig true 50 in
  let st := mkMediatorState true (of_millis 80) in
  let now := fst (frameWithDelay 150) in
  let msg := snd (frameWithDelay 150) in
  accepted (snd (feedPSD cfg now msg st)) = false
  /\ measuredSampleRate msg = 240000
  /\ existsb isSetProcessRate (snd (feedPSD cfg now msg st)) = false
  /\ ~ In (SetProcessRate (measuredSampleRate msg))
          (snd (feedPSD cfg now msg st)).
Proof.
  repeat split; try reflexivity.
  intros [Hin | []]. discriminate Hin.
Qed.

End DroppedFrames.

(** ** Spin boxes *)

Section SpinBoxFacts.
Import Widgets.

Lemma sb_bound_clamp s v :
  sb_minimum s <= sb_maximum s ->
  sb_bound s v = clamp (sb_minimum s) (sb_maximum s) v.
Proof.
  intros Hrange. unfold sb_bound, clamp. zcases; lia.
Qed.

Lemma sb_bound_within s v :
  sb_minimum s <= sb_maximum s ->
  sb_minimum s <= sb_bound s v <= sb_maximum s.
Proof.
  intros Hrange. unfold sb_bound. zcases; lia.
Qed.

Lemma sb_setMinimum_spec lo s :
  sb_setMinimum lo s
  = sb_setValue (sb_value s)
      (mkSpinBox (sb_value s) lo (Z.max lo (sb_maximum s))).
Proof.
  unfold sb_setMinimum, sb_setRange. do 2 f_equal. zcases; lia.
Qed.

Lemma sb_setMaximum_spec hi s :
  sb_setMaximum hi s
  = sb_setValue (sb_value s)
      (mkSpinBox (sb_value s) (Z.min (sb_minimum s) hi) hi).
Proof.
  unfold sb_setMaximum, sb_setRange. do 2 f_equal; zcases; lia.
Qed.

(** Installing the limits [lo <= hi], minimum first, leaves the spin box
    with exactly these limits and a value within them. *)
Lemma sb_install_limits lo hi s :
  lo <= hi ->
  exists v,
    sb_setMaximum hi (sb_setMinimum lo s) = mkSpinBox v lo hi
    /\ lo <= v <= hi.
Proof.
  intros Hrange.
  rewrite sb_setMaximum_spec, sb_setMinimum_spec.
  unfold sb_setValue. cbn [sb_value sb_minimum sb_maximum].
  rewrite (Z.min_l lo hi Hrange).
  eexists. split; [reflexivity |].
  apply (sb_bound_within (mkSpinBox _ lo hi)). exact Hrange.
Qed.

End SpinBoxFacts.

(** ** The frequency range of the dialog *)

Section RangeFacts.
Import Widgets PanoramicDialog.
Context {W : Type} `{Waterfall W}.

Lemma spins_onWaterfall f (d : Dialog W) :
  rangeStartSpin (ui (onWaterfall f d)) = rangeStartSpin (ui d)
  /\ rangeEndSpin (ui (onWaterfall f d)) = rangeEndSpin (ui d).
Proof. split; reflexivity. Qed.

Lemma spins_onRangeStartSpin f (d : Dialog W) :
  rangeStartSpin (ui (onRangeStartSpin f d)) = f (rangeStartSpin (ui d))
  /\ rangeEndSpin (ui (onRangeStartSpin f d)) = rangeEndSpin (ui d).
Proof. split; reflexivity. Qed.

Lemma spins_onRangeEndSpin f (d : Dialog W) :
  rangeStartSpin (ui (onRangeEndSpin f d)) = rangeStartSpin (ui d)
  /\ rangeEndSpin (ui (onRangeEndSpin f d)) = f (rangeEndSpin (ui d)).
Proof. split; reflexivity. Qed.

(** [adjustRanges] touches the spin boxes only to exchange their values. *)
Lemma adjustRanges_spins (d : Dialog W) :
  let s := rangeStartSpin (ui d) in
  let e := rangeEndSpin (ui d) in
  (rangeStartSpin (ui (adjustRanges d)), rangeEndSpin (ui (adjustRanges d)))
  = if sb_value s >? sb_value e
    then (sb_setValue (sb_value e) s, sb_setValue (sb_value s) e)
    else (s, e).
Proof.
  unfold adjustRanges.
  destruct (sb_value (rangeStartSpin (ui d)) >? sb_value (rangeEndSpin (ui d)));
    reflexivity.
Qed.

(** With the limits installed, [adjustRanges] orders the stored range and
    keeps it within the limits. *)
Lemma adjustRanges_orders lo hi (d : Dialog W) :
  limitsInstalled lo hi d ->
  limitsInstalled lo hi (adjustRanges d)
  /\ getMinFreq (adjustRanges d)
     = Z.min (getMinFreq d) (getMaxFreq d)
  /\ getMaxFreq (adjustRanges d)
     = Z.max (getMinFreq d) (getMaxFreq d).
Proof.
  intros (Hs & He & Hsv & Hev).
  pose proof (adjustRanges_spins d) as Hspins. cbv zeta in Hspins.
  unfold limitsInstalled, getMinFreq, getMaxFreq.
  destruct (adjustRanges d) as [u' ? ? ? ? ? ?]. cbn [ui] in *.
  destruct u' as [? s' e' ? ? ? ? ?].
  cbn [rangeStartSpin rangeEndSpin] in *.
  rewrite Z.gtb_ltb in Hspins.
  destruct (Z.ltb_spec (sb_value (rangeEndSpin (ui d)))
              (sb_value (rangeStartSpin (ui d)))) as [Hlt | Hge];
    injection Hspins as -> ->.
  - rewrite Hs, He. unfold sb_setValue, sb_bound.
    cbn [sb_value sb_minimum sb_maximum].
    repeat split; try (f_equal; zcases; lia); zcases; lia.
  - repeat split; try assumption; lia.
Qed.

(** Setting the limits of both spin boxes installs them. *)
Lemma limits_installed lo hi (d : Dialog W) :
  lo <= hi ->
  limitsInstalled lo hi
    (onRangeEndSpin (sb_setMaximum hi)
       (onRangeEndSpin (sb_setMinimum lo)
          (onRangeStartSpin (sb_setMaximum hi)
             (onRangeStartSpin (sb_setMinimum lo) d)))).
Proof.
  intros Hrange.
  destruct (sb_install_limits lo hi (rangeStartSpin (ui d)) Hrange)
    as (v1 & Hv1 & Hb1).
  destruct (sb_install_limits lo hi (rangeEndSpin (ui d)) Hrange)
    as (v2 & Hv2 & Hb2).
  unfold limitsInstalled, onRangeEndSpin, onRangeStartSpin, setUi.
  cbn [ui rangeStartSpin rangeEndSpin].
  rewrite Hv1, Hv2. cbn [sb_value]. repeat split; try reflexivity; lia.
Qed.

(** Writing values into both spin boxes keeps the limits and stores the
    values clamped. *)
Lemma limits_kept_by_setValue lo hi a b (d : Dialog W) :
  lo <= hi ->
  limitsInstalled lo hi d ->
  let d' := onRangeEndSpin (sb_setValue b) (onRangeStartSpin (sb_setValue a) d) in
  limitsInstalled lo hi d'
  /\ getMinFreq d' = clamp lo hi a
  /\ getMaxFreq d' = clamp lo hi b.
Proof.
  intros Hrange (Hs & He & Hsv & Hev).
  unfold limitsInstalled, getMinFreq, getMaxFreq, onRangeEndSpin,
    onRangeStartSpin, setUi.
  cbn [ui rangeStartSpin rangeEndSpin].
  rewrite Hs, He. unfold sb_setValue. cbn [sb_value sb_minimum sb_maximum].
  rewrite !(sb_bound_clamp (mkSpinBox _ lo hi)) by exact Hrange.
  cbn [sb_minimum sb_maximum].
  repeat split; try reflexivity; unfold clamp; lia.
Qed.



End RangeFacts.

Section RangeWitness.
Import Widgets PanoramicDialog.


End RangeWitness.

(** ** Single precision on small integers *)

Section Float32Facts.

Lemma pow2_step d : 0 < d -> 2 ^ d = 2 * 2 ^ (d - 1).
Proof.
  intros Hd. rewrite <- Z.pow_succ_r by lia. f_equal. lia.
Qed.

Lemma digits2_pos_bounds p :
  2 ^ (Zpos (digits2_pos p) - 1) <= Zpos p < 2 ^ Zpos (digits2_pos p).
Proof.
  induction p as [p IH | p IH |]; cbn [digits2_pos].
  - rewrite Pos2Z.inj_succ. change (Z.pos p~1) with (2 * Z.pos p + 1).
    pose proof (Pos2Z.is_pos (digits2_pos p)) as HD. revert IH HD.
    generalize (Zpos (digits2_pos p)). intros D IH HD.
    replace (Z.succ D - 1) with D by lia.
    rewrite (pow2_step (Z.succ D)) by lia.
    replace (Z.succ D - 1) with D by lia.
    rewrite (pow2_step D) in * by lia. lia.
  - rewrite Pos2Z.inj_succ. change (Z.pos p~0) with (2 * Z.pos p).
    pose proof (Pos2Z.is_pos (digits2_pos p)) as HD. revert IH HD.
    generalize (Zpos (digits2_pos p)). intros D IH HD.
    replace (Z.succ D - 1) with D by lia.
    rewrite (pow2_step (Z.succ D)) by lia.
    replace (Z.succ D - 1) with D by lia.
    rewrite (pow2_step D) in * by lia. lia.
  - simpl. lia.
Qed.

Lemma iter_xO_value p k : Zpos (Pos.iter xO p k) = Zpos p * 2 ^ Zpos k.
Proof.
  induction k as [| k IH] using Pos.peano_ind.
  - simpl. lia.
  - rewrite Pos.iter_succ, Pos2Z.inj_xO, IH, Pos2Z.inj_succ, Z.pow_succ_r by lia. lia.
Qed.

Lemma iter_xO_digits p k :
  digits2_pos (Pos.iter xO p k) = (digits2_pos p + k)%positive.
Proof.
  induction k as [| k IH] using Pos.peano_ind.
  - simpl. lia.
  - rewrite Pos.iter_succ. cbn [digits2_pos]. rewrite IH. lia.
Qed.

(* canonical finite positive float *)
Lemma round_canonical sign m e :
  digits2_pos m = 24%positive -> -149 <= e <= 104 ->
  binary_round_aux 24 128 sign (Zpos m) e loc_Exact = S754_finite sign m e.
Proof.
  intros Hd He. unfold binary_round_aux, shr_fexp, fexp, emin.
  cbn [Zdigits2]. rewrite Hd.
  replace (Z.max (24 + e - 24) (3 - 128 - 24) - e) with 0 by lia.
  cbn [shr shr_record_of_loc shr_m loc_of_shr_record round_nearest_even Zdigits2].
  rewrite Hd.
  replace (Z.max (24 + e - 24) (3 - 128 - 24) - e) with 0 by lia.
  cbn [shr shr_m].
  destruct (Z.leb_spec e (128 - 24)); [reflexivity | lia].
Qed.

Lemma binary_round_canonical sign p :
  Zpos p < 2 ^ 24 ->
  exists m e,
    binary_round Float32.prec Float32.emax sign p 0 = S754_finite sign m e
    /\ digits2_pos m = 24%positive
    /\ -23 <= e <= 0
    /\ Zpos m = Zpos p * 2 ^ (- e).
Proof.
  intros Hp.
  pose proof (digits2_pos_bounds p) as [Hlo _].
  assert (Hd : Zpos (digits2_pos p) <= 24).
  { destruct (Z.le_gt_cases (Zpos (digits2_pos p)) 24) as [Hle | Hgt]; [exact Hle |].
    exfalso.
    assert (2 ^ 24 <= 2 ^ (Zpos (digits2_pos p) - 1)).
    { apply Z.pow_le_mono_r; [reflexivity |]. revert Hgt.
      generalize (Zpos (digits2_pos p)). intros; lia. }
    revert Hlo H Hp. generalize (2 ^ (Zpos (digits2_pos p) - 1)).
    intros; lia. }
  unfold binary_round, Float32.prec, Float32.emax.
  unfold fexp, emin, shl_align.
  rewrite Z.add_0_r, Z.sub_0_r.
  assert (Hmax : Z.max (Zpos (digits2_pos p) - 24) (3 - 128 - 24)
                 = Zpos (digits2_pos p) - 24).
  { pose proof (Pos2Z.is_pos (digits2_pos p)) as Hpos. revert Hpos Hd.
    generalize (Zpos (digits2_pos p)). intros; lia. }
  rewrite Hmax.
  destruct (Zpos (digits2_pos p) - 24) as [| k | k] eqn:Hk.
  - exists p, 0. split; [| split; [| split]].
    + apply round_canonical; [| lia]. apply Pos2Z.inj.
      revert Hk. generalize (Zpos (digits2_pos p)). intros; lia.
    + apply Pos2Z.inj. revert Hk. generalize (Zpos (digits2_pos p)). intros; lia.
    + lia.
    + simpl. lia.
  - exfalso. revert Hk Hd. generalize (Zpos (digits2_pos p)). intros; lia.
  - assert (Hdig : digits2_pos (Pos.iter xO p k) = 24%positive).
    { rewrite iter_xO_digits. apply Pos2Z.inj. rewrite Pos2Z.inj_add.
      revert Hk. generalize (Zpos (digits2_pos p)). intros; lia. }
    assert (Hkb : Zpos k <= 23).
    { pose proof (Pos2Z.is_pos (digits2_pos p)) as Hpos. revert Hk Hpos.
      generalize (Zpos (digits2_pos p)). intros; lia. }
    exists (Pos.iter xO p k), (Zneg k). split; [| split; [| split]].
    + apply round_canonical; [exact Hdig | lia].
    + exact Hdig.
    + lia.
    + rewrite iter_xO_value. reflexivity.
Qed.

Lemma canonical_bounds m :
  digits2_pos m = 24%positive -> 2 ^ 23 <= Zpos m < 2 ^ 24.
Proof.
  intros Hd. pose proof (digits2_pos_bounds m) as Hb. rewrite Hd in Hb.
  exact Hb.
Qed.

Lemma scaled_order p1 p2 k B m1 m2 :
  2 <= k -> 0 < B ->
  m1 = p1 * (k * B) -> m2 = p2 * B ->
  8388608 <= m1 < 16777216 -> 8388608 <= m2 < 16777216 ->
  p1 <= p2.
Proof.
  intros Hk HB Hm1 Hm2 Hb1 Hb2.
  assert (H1 : (p1 * k) * B < (2 * p2) * B).
  { replace ((p1 * k) * B) with m1 by (rewrite Hm1; ring).
    replace ((2 * p2) * B) with (2 * m2) by (rewrite Hm2; ring). lia. }
  apply Z.mul_lt_mono_pos_r in H1; [| exact HB].
  assert (H2 : 0 < p1).
  { destruct (Z.lt_total 0 p1) as [Hp | [Hp | Hp]]; [exact Hp | |].
    - subst p1. lia.
    - assert (p1 * (k * B) < 0); [| lia].
      apply Z.mul_neg_pos; [exact Hp |]. apply Z.mul_pos_pos; lia. }
  assert (H3 : p1 * 2 <= p1 * k).
  { apply Z.mul_le_mono_nonneg_l; lia. }
  lia.
Qed.

Lemma canonical_leb m1 e1 m2 e2 p1 p2 :
  digits2_pos m1 = 24%positive -> digits2_pos m2 = 24%positive ->
  e1 <= 0 -> e2 <= 0 ->
  Zpos m1 = p1 * 2 ^ (- e1) -> Zpos m2 = p2 * 2 ^ (- e2) ->
  SFleb (S754_finite false m1 e1) (S754_finite false m2 e2) = (p1 <=? p2).
Proof.
  intros Hd1 Hd2 He1 He2 Hm1 Hm2.
  pose proof (canonical_bounds m1 Hd1) as Hb1.
  pose proof (canonical_bounds m2 Hd2) as Hb2.
  change (2 ^ 23) with 8388608 in *. change (2 ^ 24) with 16777216 in *.
  assert (Hpow : forall a b, 0 <= b < a -> exists k, 2 <= k /\ 2 ^ a = k * 2 ^ b).
  { intros a b Hab. exists (2 ^ (a - b)). split.
    - change 2 with (2 ^ 1) at 1. apply Z.pow_le_mono_r; lia.
    - rewrite <- Z.pow_add_r by lia. f_equal. lia. }
  assert (Hpos : forall a, 0 <= a -> 0 < 2 ^ a).
  { intros a Ha. apply Z.pow_pos_nonneg; lia. }
  unfold SFleb, SFcompare.
  destruct (Z.compare_spec e1 e2) as [Heq | Hlt | Hgt].
  - subst e2. rewrite Pos.compare_cont_spec. cbn [Pos.switch_Eq].
    change (m1 ?= m2)%positive with (Zpos m1 ?= Zpos m2).
    rewrite Hm1, Hm2. pose proof (Hpos (- e1) ltac:(lia)) as HP.
    revert HP. generalize (2 ^ (- e1)). intros B HB.
    destruct (Z.compare_spec (p1 * B) (p2 * B));
      symmetry; [apply Z.leb_le | apply Z.leb_le | apply Z.leb_gt]; nia.
  - destruct (Hpow (- e1) (- e2) ltac:(lia)) as (k & Hk & Hsplit).
    rewrite Hsplit in Hm1. pose proof (Hpos (- e2) ltac:(lia)) as HP.
    revert Hm1 Hm2 HP. generalize (2 ^ (- e2)). intros B Hm1 Hm2 HB.
    symmetry. apply Z.leb_le. apply (scaled_order p1 p2 k B (Zpos m1) (Zpos m2));
      (assumption || lia).
  - destruct (Hpow (- e2) (- e1) ltac:(lia)) as (k & Hk & Hsplit).
    rewrite Hsplit in Hm2. pose proof (Hpos (- e1) ltac:(lia)) as HP.
    revert Hm1 Hm2 HP. generalize (2 ^ (- e1)). intros B Hm1 Hm2 HB.
    symmetry. apply Z.leb_gt.
    pose proof (scaled_order p2 p1 k B (Zpos m2) (Zpos m1)) as Hso.
    assert (p2 <= p1) by (apply Hso; (assumption || lia)).
    assert (p2 <> p1); [| lia].
    intros ->. assert (Hk' : Zpos m2 = k * Zpos m1) by (rewrite Hm1, Hm2; ring).
    nia.
Qed.

Lemma mul_one m e :
  digits2_pos m = 24%positive -> -23 <= e <= 0 ->
  Float32.mul (S754_finite false m e) Float32.one = S754_finite false m e.
Proof.
  intros Hd He.
  unfold Float32.mul, SFmul, Float32.one, Float32.prec, Float32.emax. cbn [xorb].
  rewrite Pos.mul_comm.
  replace (8388608 * m)%positive with (Pos.iter xO m 23) by reflexivity.
  unfold binary_round_aux, shr_fexp, fexp, emin.
  cbn [Zdigits2]. rewrite iter_xO_digits, Hd.
  replace (Z.max (Zpos (24 + 23) + (e + -23) - 24) (3 - 128 - 24) - (e + -23))
    with 23 by lia.
  cbv [shr shr_record_of_loc SpecFloat.iter_pos Pos.iter shr_1 orb shr_m
         loc_of_shr_record round_nearest_even Zdigits2].
  rewrite Hd.
  replace (Z.max (24 + (e + -23 + 23) - 24) (3 - 128 - 24) - (e + -23 + 23))
    with 0 by lia.
  replace (e + -23 + 23) with e by lia.
  destruct (Z.leb_spec e (128 - 24)); [reflexivity | lia].
Qed.

End Float32Facts.

(** ** Zoom and pan *)

Section ZoomPanFacts.
Import Widgets PanoramicDialog.
Context {W : Type} `{Waterfall W}.

Lemma fixedFreqMode_setWfRange a b (d : Dialog W) :
  fixedFreqMode (setWfRange a b d) = fixedFreqMode d.
Proof.
  unfold setWfRange.
  destruct (fixedFreqMode d) eqn:Hmode.
  - destruct (negb (to_qint64 (minBwForZoom d) =? currBw d)); auto.
  - cbn [onWaterfall setUi currBw].
    destruct (negb (b - a =? currBw d)); auto.
Qed.

(** After [setWfRange] the bandwidth the dialog remembers is the minimum
    zoom bandwidth in fixed-frequency mode and the window width otherwise. *)
Lemma currBw_setWfRange a b (d : Dialog W) :
  currBw (setWfRange a b d)
  = if fixedFreqMode d then to_qint64 (minBwForZoom d) else b - a.
Proof.
  unfold setWfRange.
  destruct (fixedFreqMode d).
  - destruct (Z.eqb_spec (to_qint64 (minBwForZoom d)) (currBw d)); cbn; auto.
  - cbn [onWaterfall setUi currBw].
    destruct (Z.eqb_spec (b - a) (currBw d)); cbn; auto.
Qed.

(** A pan changes nothing but the waterfall. *)
Lemma onNewCenterFreq_keeps freq (d : Dialog W) :
  let d' := fst (onNewCenterFreq freq d) in
  getMinFreq d' = getMinFreq d /\ getMaxFreq d' = getMaxFreq d
  /\ currBw d' = currBw d /\ fixedFreqMode d' = fixedFreqMode d.
Proof.
  unfold onNewCenterFreq.
  destruct (panWindow (getMinFreq d) (getMaxFreq d) (currBw d) freq)
    as [[min max] atBorder].
  destruct atBorder; repeat split.
Qed.

Lemma onNewCenterFreq_events freq (d : Dialog W) :
  snd (onNewCenterFreq freq d)
  = [EvDetailChanged
       (fst (fst (panWindow (getMinFreq d) (getMaxFreq d) (currBw d) freq)))
       (snd (fst (panWindow (getMinFreq d) (getMaxFreq d) (currBw d) freq)))
       (fixedFreqMode d)].
Proof.
  unfold onNewCenterFreq.
  destruct (panWindow (getMinFreq d) (getMaxFreq d) (currBw d) freq)
    as [[min max] atBorder].
  destruct atBorder; reflexivity.
Qed.

(** What the comparison with the remembered bandwidth gates: a window of
    the same width as before only re-centres the waterfall in sweep mode,
    and changes nothing in fixed-frequency mode. *)
Lemma setWfRange_same_width a b (d : Dialog W) :
  (fixedFreqMode d = false -> b - a = currBw d ->
   setWfRange a b d = onWaterfall (setCenterFreq (Z.quot (b + a) 2)) d)
  /\ (fixedFreqMode d = true -> to_qint64 (minBwForZoom d) = currBw d ->
      setWfRange a b d = d).
Proof.
  unfold setWfRange. split; intros Hmode Hbw; rewrite Hmode.
  - cbn [onWaterfall setUi currBw]. rewrite Hbw, Z.eqb_refl. reflexivity.
  - rewrite Hbw, Z.eqb_refl. reflexivity.
Qed.

(** The mode a zoom change selects is the single-precision comparison of
    the tentative width with the threshold. *)
Lemma onNewZoomLevel_mode (d : Dialog W) :
  adjustingRange d = false ->
  fixedFreqMode (fst (onNewZoomLevel d))
  = belowZoomThreshold (tentativeWidth d) d.
Proof.
  intros Hguard. unfold tentativeWidth, onNewZoomLevel.
  rewrite Hguard. cbn [negb].
  change (getMinFreq (setAdjustingRange true d)) with (getMinFreq d).
  change (getMaxFreq (setAdjustingRange true d)) with (getMaxFreq d).
  destruct (reinjectWindow _ _ _ _) as [[[min max] adjLeft] adjRight].
  set (d1 := if adjLeft && adjRight then _ else _).
  assert (Hsame : belowZoomThreshold (max - min) d1
                  = belowZoomThreshold (max - min) d).
  { unfold d1. destruct (adjLeft && adjRight); reflexivity. }
  rewrite <- Hsame.
  destruct (belowZoomThreshold (max - min) d1);
    cbn [fixedFreqMode setFixedFreqMode fst setAdjustingRange];
    rewrite fixedFreqMode_setWfRange; reflexivity.
Qed.

Lemma getRelBw_full (d : Dialog W) :
  relBwSlider (ui d) = 100 -> getRelBw d = Float32.one.
Proof.
  intros Hs. unfold getRelBw. rewrite Hs. vm_compute. reflexivity.
Qed.

(** With the slider at 100 % and both the width and the minimum zoom
    bandwidth below 2^24, single precision is exact and the comparison is
    the comparison of the integers. *)
Lemma belowZoomThreshold_exact (d : Dialog W) w :
  relBwSlider (ui d) = 100 ->
  - 2 ^ 24 < w < 2 ^ 24 ->
  0 <= minBwForZoom d < 2 ^ 24 ->
  belowZoomThreshold w d = (w <=? minBwForZoom d).
Proof.
  intros Hs Hw Hbw. unfold belowZoomThreshold.
  rewrite (getRelBw_full d Hs). unfold Float32.of_Z, binary_normalize.
  destruct (minBwForZoom d) as [| t | t]; [| | lia].
  - destruct w as [| p | p].
    + reflexivity.
    + destruct (binary_round_canonical false p ltac:(lia))
        as (m & e & -> & _). reflexivity.
    + destruct (binary_round_canonical true p ltac:(lia))
        as (m & e & -> & _). reflexivity.
  - destruct (binary_round_canonical false t ltac:(lia))
      as (mt & et & -> & Hdt & Het & Hmt).
    rewrite (mul_one mt et Hdt Het).
    destruct w as [| p | p].
    + reflexivity.
    + destruct (binary_round_canonical false p ltac:(lia))
        as (m & e & -> & Hd & He & Hm).
      apply canonical_leb; (assumption || lia).
    + destruct (binary_round_canonical true p ltac:(lia))
        as (m & e & -> & _). reflexivity.
Qed.

(** Hence, in that range, a zoom change selects fixed-frequency mode exactly
    when the tentative width is at most the minimum zoom bandwidth. *)
Lemma onNewZoomLevel_mode_exact (d : Dialog W) :
  adjustingRange d = false ->
  relBwSlider (ui d) = 100 ->
  - 2 ^ 24 < tentativeWidth d < 2 ^ 24 ->
  0 <= minBwForZoom d < 2 ^ 24 ->
  fixedFreqMode (fst (onNewZoomLevel d))
  = (tentativeWidth d <=? minBwForZoom d).
Proof.
  intros Hguard Hs Hw Hbw.
  rewrite (onNewZoomLevel_mode d Hguard).
  apply belowZoomThreshold_exact; assumption.
Qed.

(** C1, as the code has it.  Every pan request emits exactly one
    [detailChanged] event, and a repeated request emits the same event
    again; every zoom request emits exactly one [detailChanged] event unless
    the re-entrancy guard is held, and then none.  Nothing compares the
    window or its width with the one emitted last. *)
Theorem detailChanged_emitted_on_every_request freq (d : Dialog W) :
  (exists min max,
      snd (onNewCenterFreq freq d)
      = [EvDetailChanged min max (fixedFreqMode d)])
  /\ snd (onNewCenterFreq freq (fst (onNewCenterFreq freq d)))
     = snd (onNewCenterFreq freq d)
  /\ (if adjustingRange d
      then snd (onNewZoomLevel d) = []
      else exists min max mode,
          snd (onNewZoomLevel d) = [EvDetailChanged min max mode]).
Proof.
  split; [| split].
  - rewrite onNewCenterFreq_events. eauto.
  - destruct (onNewCenterFreq_keeps freq d) as (Hmin & Hmax & Hbw & Hmode).
    rewrite !onNewCenterFreq_events, Hmin, Hmax, Hbw, Hmode. reflexivity.
  - unfold onNewZoomLevel. destruct (adjustingRange d); cbn [negb].
    + reflexivity.
    + destruct (reinjectWindow _ _ _ _) as [[[min max] adjLeft] adjRight].
      match goal with
      | |- context [let '(_, _) := if ?c then _ else _ in _] => destruct c
      end; eauto.
Qed.

(** C3, as the code has it.  When a zoom change leaves the dialog in
    fixed-frequency mode, the emitted window is centred on the waterfall's
    tuned centre frequency (not the zoom-gesture centre, which adds the FFT
    centre offset) and extends half the waterfall's span to either side, the
    span being the one read at the start of the handler; the minimum zoom
    bandwidth becomes the bandwidth the dialog remembers, not the width of
    the window. *)
Theorem fixedFreq_window_spans_waterfall (d : Dialog W) :
  adjustingRange d = false ->
  fixedFreqMode (fst (onNewZoomLevel d)) = true ->
  exists w,
    (w = waterfall (ui d) \/ w = resetHorizontalZoom (waterfall (ui d)))
    /\ snd (onNewZoomLevel d)
       = [EvDetailChanged
            (getCenterFreq w - Z.quot (getSpanFreq (waterfall (ui d))) 2)
            (getCenterFreq w + Z.quot (getSpanFreq (waterfall (ui d))) 2)
            true]
    /\ currBw (fst (onNewZoomLevel d)) = to_qint64 (minBwForZoom d).
Proof.
  intros Hguard. unfold onNewZoomLevel. rewrite Hguard. cbn [negb].
  destruct (reinjectWindow _ _ _ _) as [[[min max] adjLeft] adjRight].
  set (d1 := if adjLeft && adjRight then _ else _).
  assert (Hw : waterfall (ui d1) = waterfall (ui d)
               \/ waterfall (ui d1) = resetHorizontalZoom (waterfall (ui d))).
  { unfold d1. destruct (adjLeft && adjRight); [right | left]; reflexivity. }
  assert (Hbw : minBwForZoom d1 = minBwForZoom d).
  { unfold d1. destruct (adjLeft && adjRight); reflexivity. }
  destruct (belowZoomThreshold (max - min) d1) eqn:Hmode;
    cbn [fixedFreqMode currBw setFixedFreqMode fst snd setAdjustingRange ui];
    rewrite fixedFreqMode_setWfRange; cbn [fixedFreqMode setFixedFreqMode];
    intros Hfixed; [| discriminate Hfixed].
  exists (waterfall (ui d1)). split; [exact Hw |]. split; [reflexivity |].
  rewrite currBw_setWfRange. cbn [fixedFreqMode setFixedFreqMode minBwForZoom].
  rewrite Hbw. reflexivity.
Qed.

End ZoomPanFacts.

Section PanFacts.
Import Widgets PanoramicDialog.

Lemma quot2_bounds span : 0 <= span -> 2 * Z.quot span 2 <= span < 2 * Z.quot span 2 + 2.
Proof.
  intros Hspan.
  pose proof (Z.quot_rem' span 2).
  pose proof (Z.rem_bound_pos span 2 Hspan ltac:(lia)). lia.
Qed.

(** A window no wider than the range is slid back inside it with its width
    kept whenever it reaches a border, and otherwise left where it is. *)
Lemma panWindow_slides lo hi span freq :
  0 <= span <= hi - lo ->
  let '(min, max, atBorder) := panWindow lo hi span freq in
  lo <= min /\ min <= max /\ max <= hi
  /\ (atBorder = true -> max - min = span)
  /\ (atBorder = false ->
      min = freq - Z.quot span 2 /\ max = freq + Z.quot span 2).
Proof.
  intros [Hspan Hfits]. pose proof (quot2_bounds span Hspan) as Hq.
  unfold panWindow. rewrite Z.geb_leb.
  destruct (Z.leb_spec (freq - Z.quot span 2) lo);
    destruct (Z.leb_spec hi (freq + Z.quot span 2));
    cbn [orb andb negb]; repeat split; intros; try discriminate; lia.
Qed.

(** A window that reaches both borders becomes the whole range. *)
Lemma panWindow_both_borders lo hi span freq :
  freq - Z.quot span 2 <= lo ->
  hi <= freq + Z.quot span 2 ->
  panWindow lo hi span freq = (lo, hi, true).
Proof.
  intros Hleft Hright. unfold panWindow. rewrite Z.geb_leb.
  destruct (Z.leb_spec (freq - Z.quot span 2) lo); [| lia].
  destruct (Z.leb_spec hi (freq + Z.quot span 2)); [| lia].
  reflexivity.
Qed.

(** A window wider than the range that reaches the upper border only is
    slid to end there, and so begins below the lower border. *)
Lemma panWindow_wide_right_only lo hi span freq :
  hi - lo < span ->
  lo < freq - Z.quot span 2 ->
  hi <= freq + Z.quot span 2 ->
  panWindow lo hi span freq = (hi - span, hi, true) /\ hi - span < lo.
Proof.
  intros Hwide Hleft Hright. unfold panWindow. rewrite Z.geb_leb.
  destruct (Z.leb_spec (freq - Z.quot span 2) lo); [lia |].
  destruct (Z.leb_spec hi (freq + Z.quot span 2)); [| lia].
  split; [reflexivity | lia].
Qed.

End PanFacts.

(** ** Starting a scan *)

Section ScanFacts.
Import Widgets PanoramicDialog.
Context {W : Type} `{Waterfall W}.

(** C9.  When the scan button is pressed while the selected device is the
    banned one, [onToggleScan] shows an error and emits nothing else (in
    particular no start), releases the button, and leaves the range spin
    boxes, the full-range check box and the LNB offset as they were. *)
Theorem banned_device_refuses_start defaultDevice dev (d : Dialog W) :
  isChecked (scanButton (ui d)) = true ->
  getSelectedDevice d = Some dev ->
  bannedDevice d <> "" ->
  Device.getDesc dev = bannedDevice d ->
  let d' := fst (onToggleScan defaultDevice d) in
  let events := snd (onToggleScan defaultDevice d) in
  existsb isStart events = false
  /\ (exists title text, events = [EvCritical title text])
  /\ isChecked (scanButton (ui d')) = false
  /\ rangeStartSpin (ui d') = rangeStartSpin (ui d)
  /\ rangeEndSpin (ui d') = rangeEndSpin (ui d)
  /\ fullRangeCheck (ui d') = fullRangeCheck (ui d)
  /\ lnbDoubleSpinBox (ui d') = lnbDoubleSpinBox (ui d).
Proof.
  intros Hchecked Hdev Hbanned Hdesc. unfold onToggleScan.
  rewrite Hchecked, Hdev, Hdesc.
  rewrite bool_decide_eq_true_2 by reflexivity.
  assert (Hlen : (0 <? Z.of_nat (String.length (bannedDevice d))) = true).
  { destruct (bannedDevice d); [contradiction | reflexivity]. }
  rewrite Hlen. cbn [andb fst snd].
  repeat split; eauto.
Qed.

End ScanFacts.

(** ** The handlers on concrete dialogs *)

Section Scenarios.
Import Widgets PanoramicDialog.

(** C1, as stated, fails.  A dialog showing 2.4 MHz of the range
    [0, 1 GHz] is asked twice in a row for the window centred on 100 MHz:
    the same [detailChanged] event is emitted twice, not once; and a pan to
    150 MHz, which keeps the width and only shifts the centre, emits an
    event as well. *)
Lemma same_window_twice_emits_twice :
  let d0 := plainDialog 0 1000000000 100000000 0 2400000 100 2400000 2400000
              false in
  let d1 := fst (onNewCenterFreq 100000000 d0) in
  let d2 := fst (onNewCenterFreq 100000000 d1) in
  snd (onNewCenterFreq 100000000 d0) ++ snd (onNewCenterFreq 100000000 d1)
  = [EvDetailChanged 98800000 101200000 false;
     EvDetailChanged 98800000 101200000 false]
  /\ length (snd (onNewCenterFreq 100000000 d0)
             ++ snd (onNewCenterFreq 100000000 d1)) <> 1%nat
  /\ snd (onNewCenterFreq 150000000 d2)
     = [EvDetailChanged 148800000 151200000 false]
  /\ 151200000 - 148800000 = 101200000 - 98800000.
Proof.
  vm_compute. repeat split; discriminate.
Qed.

(** C3, as stated, fails.  The waterfall is tuned to 100 MHz and shows 1 MHz
    around 100.25 MHz; the minimum zoom bandwidth is 2.4 MHz.  The zoom
    change enters fixed-frequency mode and the emitted window is
    [99.5 MHz, 100.5 MHz]: 1 MHz wide, not 2.4 MHz, and not
    [98.8 MHz, 101.2 MHz]. *)
Lemma fixedFreq_window_width_is_not_minBw :
  let d := plainDialog 0 1000000000 100000000 250000 1000000 100 2400000 0
             false in
  snd (onNewZoomLevel d) = [EvDetailChanged 99500000 100500000 true]
  /\ minBwForZoom d = 2400000
  /\ 100500000 - 99500000 <> minBwForZoom d
  /\ snd (onNewZoomLevel d)
     <> [EvDetailChanged (100000000 - Z.quot (minBwForZoom d) 2)
           (100000000 + Z.quot (minBwForZoom d) 2) true].
Proof.
  vm_compute. repeat split; discriminate.
Qed.

Lemma fixedFreq_window_spans_waterfall_witness :
  let d := plainDialog 0 1000000000 100000000 250000 1000000 100 2400000 0
             false in
  adjustingRange d = false
  /\ fixedFreqMode (fst (onNewZoomLevel d)) = true
  /\ exists w,
      (w = waterfall (ui d) \/ w = resetHorizontalZoom (waterfall (ui d)))
      /\ snd (onNewZoomLevel d)
         = [EvDetailChanged
              (getCenterFreq w - Z.quot (getSpanFreq (waterfall (ui d))) 2)
              (getCenterFreq w + Z.quot (getSpanFreq (waterfall (ui d))) 2)
              true]
      /\ currBw (fst (onNewZoomLevel d)) = to_qint64 (minBwForZoom d).
Proof.
  intros d.
  assert (Hguard : adjustingRange d = false) by reflexivity.
  assert (Hfixed : fixedFreqMode (fst (onNewZoomLevel d)) = true)
    by (vm_compute; reflexivity).
  split; [exact Hguard |]. split; [exact Hfixed |].
  exact (fixedFreq_window_spans_waterfall d Hguard Hfixed).
Defined.

(** Where single precision is exact the mode changes at the threshold: with
    a minimum zoom bandwidth of 2.4 MHz and the slider at 100 %, a window of
    2400000 Hz is shown in fixed-frequency mode, and windows of 2400001 Hz
    and 2400002 Hz are swept. *)
Lemma zoom_threshold_small_widths :
  fixedFreqMode
    (fst (onNewZoomLevel
            (plainDialog 0 1000000000 500000000 0 2400000 100 2400000 0 false)))
  = true
  /\ fixedFreqMode
       (fst (onNewZoomLevel
               (plainDialog 0 2400001 1000000 0 30000000 100 2400000 0 false)))
     = false
  /\ fixedFreqMode
       (fst (onNewZoomLevel
               (plainDialog 0 1000000000 500000000 0 2400002 100 2400000 0
                  false)))
     = false.
Proof.
  vm_compute. repeat split.
Qed.

(** C6 on the code, at a width the code gets wrong.  The minimum zoom
    bandwidth is 20 MHz and the slider is at 100 %, so the threshold is
    20000000 Hz; the range is [0, 20000001] and the zoom request covers all
    of it, so the tentative window is 20000001 Hz wide, one Hz above the
    threshold.  The width is converted to [float] for the comparison, where
    it rounds to 20000000, and the dialog enters fixed-frequency mode instead
    of sweep mode. *)
Theorem zoom_threshold_rounds_width :
  let d := plainDialog 0 20000001 10000000 0 30000000 100 20000000 0 false in
  reinjectWindow (getMinFreq d) (getMaxFreq d)
    (10000000 - Z.quot 30000000 2) (10000000 + Z.quot 30000000 2)
  = (0, 20000001, true, true)
  /\ Float32.mul (Float32.of_Z (minBwForZoom d)) (getRelBw d)
     = Float32.of_Z 20000000
  /\ Float32.of_Z (20000001 - 0) = Float32.of_Z 20000000
  /\ belowZoomThreshold (20000001 - 0) d = true
  /\ fixedFreqMode (fst (onNewZoomLevel d)) = true.
Proof.
  vm_compute. repeat split.
Qed.

(** The pan scenario of the specification: range [0, 1000000], width
    200000, centre moved from 950000 to 1050000.  The window is slid back to
    [800000, 1000000]. *)
Lemma pan_clamp_scenario :
  snd (onNewCenterFreq 1050000
         (plainDialog 0 1000000 950000 0 200000 100 2400000 200000 false))
  = [EvDetailChanged 800000 1000000 false].
Proof.
  vm_compute. reflexivity.
Qed.

(** C7 on the code, at a pan the code gets wrong.  The range is
    [100 MHz, 102 MHz] and the dialog is in fixed-frequency mode with a
    bandwidth of 2.4 MHz, wider than the range.  A pan to 101.5 MHz, inside
    the range, reaches the upper border only; the window is slid to end
    there and becomes [99.6 MHz, 102 MHz], which is neither the full range
    nor within it. *)
Theorem pan_wide_window_leaves_range :
  let d := plainDialog 100000000 102000000 101000000 0 2400000 100 2400000
             2400000 true in
  getMinFreq d = 100000000 /\ getMaxFreq d = 102000000
  /\ currBw d = 2400000
  /\ snd (onNewCenterFreq 101500000 d)
     = [EvDetailChanged 99600000 102000000 true].
Proof.
  vm_compute. repeat split.
Qed.

Lemma banned_device_refuses_start_witness :
  let d := scanRequested "RTL-SDR" in
  let d' := fst (onToggleScan noDevice d) in
  let events := snd (onToggleScan noDevice d) in
  (isChecked (scanButton (ui d)) = true
   /\ getSelectedDevice d = Some rtlsdr
   /\ bannedDevice d <> ""
   /\ Device.getDesc rtlsdr = bannedDevice d)
  /\ existsb isStart events = false
  /\ (exists title text, events = [EvCritical title text])
  /\ isChecked (scanButton (ui d')) = false
  /\ rangeStartSpin (ui d') = rangeStartSpin (ui d)
  /\ rangeEndSpin (ui d') = rangeEndSpin (ui d)
  /\ fullRangeCheck (ui d') = fullRangeCheck (ui d)
  /\ lnbDoubleSpinBox (ui d') = lnbDoubleSpinBox (ui d).
Proof.
  intros d d' events.
  assert (Hchecked : isChecked (scanButton (ui d)) = true) by reflexivity.
  assert (Hdev : getSelectedDevice d = Some rtlsdr) by reflexivity.
  assert (Hbanned : bannedDevice d <> "") by discriminate.
  assert (Hdesc : Device.getDesc rtlsdr = bannedDevice d) by reflexivity.
  split; [repeat split; assumption |].
  exact (banned_device_refuses_start noDevice rtlsdr d
           Hchecked Hdev Hbanned Hdesc).
Defined.

End Scenarios.

(** ** Exporting the saved spectrum *)

Section ExportFacts.
Import SavedSpectrum.
Variable showFloat : nat -> Float32.float -> string.

Lemma append_cons ch (a b : string) : String ch a +:+ b = String ch (a +:+ b).
Proof. reflexivity. Qed.

Lemma append_assoc (a b c : string) : (a +:+ b) +:+ c = a +:+ (b +:+ c).
Proof.
  induction a as [| ch a IH]; [reflexivity |].
  rewrite !append_cons, IH. reflexivity.
Qed.




End ExportFacts.

Section ExportScenario.
Import SavedSpectrum.


End ExportScenario.

(** ** Persisted gains *)

Section GainFacts.
Import PanoramicDialogConfig.

(** C10.  [getGain] returns 0 when the gain map has no entry under
    "gain." + dev + "." + name; after [setGain dev name v], [getGain dev
    name] returns [v] and [hasGain dev name] is true. *)
Theorem gain_set_get dev name v (c : PanoramicDialogConfig) :
  (gains c !! ("gain." +:+ dev +:+ "." +:+ name) = None ->
   getGain dev name c = Float32.zero)
  /\ getGain dev name (setGain dev name v c) = v
  /\ hasGain dev name (setGain dev name v c) = true.
Proof.
  unfold getGain, hasGain, setGain, fullName. cbn [gains].
  rewrite lookup_insert_eq.
  split; [| split; reflexivity].
  intros Hnone. rewrite Hnone. reflexivity.
Qed.

Lemma gain_set_get_witness :
  let c := mkConfig false 0 0 0 "" "" 0 "" "" "" ∅ in
  gains c !! ("gain." +:+ "rtlsdr" +:+ "." +:+ "TUNER") = None
  /\ getGain "rtlsdr" "TUNER" c = Float32.zero
  /\ getGain "rtlsdr" "TUNER" (setGain "rtlsdr" "TUNER" (Float32.of_Z 30) c)
     = Float32.of_Z 30
  /\ hasGain "rtlsdr" "TUNER" (setGain "rtlsdr" "TUNER" (Float32.of_Z 30) c)
     = true.
Proof.
  intros c.
  assert (Hnone : gains c !! ("gain." +:+ "rtlsdr" +:+ "." +:+ "TUNER") = None)
    by reflexivity.
  destruct (gain_set_get "rtlsdr" "TUNER" (Float32.of_Z 30) c)
    as (Hget0 & Hget & Hhas).
  split; [exact Hnone |]. split; [exact (Hget0 Hnone) |].
  split; [exact Hget | exact Hhas].
Defined.

End GainFacts.

(** ** Frequency units and the zoom window *)

Section UnitFacts.
Import Widgets PanoramicDialog.

(** X1.  [getFrequencyUnits] ignores the sign of the frequency and returns
    the largest of 1, 10^3, 10^6 and 10^9 that does not exceed its magnitude
    (1 below 1000): the magnitude is less than a thousand units unless the
    unit is already 10^9.  The frequency is any [qint64] that can be
    negated. *)
Theorem getFrequencyUnits_largest_unit freq :
  - 2 ^ 63 < freq < 2 ^ 63 ->
  let u := getFrequencyUnits freq in
  getFrequencyUnits (- freq) = u
  /\ In u [1; 1000; 1000000; 1000000000]
  /\ (u = 1 \/ u <= Z.abs freq)
  /\ (u = 1000000000 \/ Z.abs freq < 1000 * u).
Proof.
  intros _. unfold getFrequencyUnits. cbn [In]. zcases; lia.
Qed.

End UnitFacts.

Section ZoomWindowFacts.
Import Widgets PanoramicDialog.

(** The window and the flags [reinjectWindow] computes, case by case. *)
Lemma reinjectWindow_cases lo hi min max :
  lo <= hi ->
  min <= max ->
  let '(min', max', adjLeft, adjRight) := reinjectWindow lo hi min max in
  (lo <= min' /\ min' <= max' /\ max' <= hi)
  /\ max' - min' = Z.min (max - min) (hi - lo)
  /\ adjLeft = adjRight
  /\ (adjLeft = false <-> lo <= min /\ max <= hi)
  /\ (adjLeft = false -> min' = min /\ max' = max).
Proof.
  intros Hrange Hwin. unfold reinjectWindow.
  rewrite !Z.gtb_ltb, !Z.geb_leb.
  destruct (Z.ltb_spec min lo); destruct (Z.leb_spec max hi);
    cbn [andb];
    try (destruct (Z.leb_spec lo min); cbn [andb]; try lia);
    repeat (rewrite ?Z.gtb_ltb; zcase_step);
    repeat split; intros; try discriminate; lia.
Qed.

(** X2.  The reinjection and the clamps of [onNewZoomLevel], for an ordered
    range and an ordered requested window: the resulting window lies within
    the range; its width is the requested width, or the width of the range
    when that is smaller; the two flags that trigger the reset of the
    horizontal zoom are always equal, and they are clear exactly when the
    requested window already lay within the range, in which case the window
    is left as requested. *)
Theorem reinjectWindow_within_range lo hi min max :
  lo <= hi ->
  min <= max ->
  let '(min', max', adjLeft, adjRight) := reinjectWindow lo hi min max in
  (lo <= min' /\ min' <= max' /\ max' <= hi)
  /\ max' - min' = Z.min (max - min) (hi - lo)
  /\ adjLeft = adjRight
  /\ (adjLeft = false <-> lo <= min /\ max <= hi)
  /\ (adjLeft = false -> min' = min /\ max' = max).
Proof. exact (reinjectWindow_cases lo hi min max). Qed.

End ZoomWindowFacts.

(** ** Zoom requests *)

Section ZoomFacts.
Import Widgets PanoramicDialog.
Context {W : Type} `{Waterfall W}.

(** [setWfRange] changes nothing but the waterfall and the remembered
    bandwidth. *)
Lemma setWfRange_frame a b (d : Dialog W) :
  let d' := setWfRange a b d in
  rangeStartSpin (ui d') = rangeStartSpin (ui d)
  /\ rangeEndSpin (ui d') = rangeEndSpin (ui d)
  /\ adjustingRange d' = adjustingRange d
  /\ minBwForZoom d' = minBwForZoom d
  /\ deviceMap d' = deviceMap d
  /\ bannedDevice d' = bannedDevice d.
Proof.
  unfold setWfRange.
  destruct (fixedFreqMode d).
  - destruct (negb (to_qint64 (minBwForZoom d) =? currBw d));
      repeat split.
  - cbn [onWaterfall setUi currBw].
    destruct (negb (b - a =? currBw d)); repeat split.
Qed.

(** What a zoom request leaves alone. *)
Lemma onNewZoomLevel_keeps (d : Dialog W) :
  let d' := fst (onNewZoomLevel d) in
  rangeStartSpin (ui d') = rangeStartSpin (ui d)
  /\ rangeEndSpin (ui d') = rangeEndSpin (ui d)
  /\ adjustingRange d' = adjustingRange d
  /\ minBwForZoom d' = minBwForZoom d
  /\ deviceMap d' = deviceMap d
  /\ bannedDevice d' = bannedDevice d
  /\ (adjustingRange d = true -> onNewZoomLevel d = (d, [])).
Proof.
  unfold onNewZoomLevel.
  destruct (adjustingRange d) eqn:Hguard; cbn [negb fst].
  - repeat split; auto.
  - destruct (reinjectWindow _ _ _ _) as [[[min max] adjLeft] adjRight].
    set (d1 := if adjLeft && adjRight then _ else _).
    assert (Hd1 : rangeStartSpin (ui d1) = rangeStartSpin (ui d)
                  /\ rangeEndSpin (ui d1) = rangeEndSpin (ui d)
                  /\ minBwForZoom d1 = minBwForZoom d
                  /\ deviceMap d1 = deviceMap d
                  /\ bannedDevice d1 = bannedDevice d).
    { unfold d1. destruct (adjLeft && adjRight); repeat split. }
    destruct Hd1 as (Hs & He & Hbw & Hmap & Hban).
    set (d2 := setFixedFreqMode _ d1).
    match goal with
    | |- context [let '(_, _) := ?c in _] => destruct c as [min' max']
    end.
    cbn [fst].
    destruct (setWfRange_frame min' max' d2) as (Hs' & He' & _ & Hbw' & Hmap' & Hban').
    cbn [setAdjustingRange ui adjustingRange minBwForZoom deviceMap bannedDevice].
    rewrite Hs', He', Hbw', Hmap', Hban'.
    unfold d2. cbn [setFixedFreqMode ui minBwForZoom deviceMap bannedDevice].
    repeat split; try assumption. intros Habs; discriminate Habs.
Qed.

(** X3.  A zoom request never changes the range spin boxes, the re-entrancy
    guard, the minimum zoom bandwidth, the device map or the banned device;
    while the guard is held it changes nothing at all and emits nothing. *)
Theorem onNewZoomLevel_frame (d : Dialog W) :
  let d' := fst (onNewZoomLevel d) in
  rangeStartSpin (ui d') = rangeStartSpin (ui d)
  /\ rangeEndSpin (ui d') = rangeEndSpin (ui d)
  /\ adjustingRange d' = adjustingRange d
  /\ minBwForZoom d' = minBwForZoom d
  /\ deviceMap d' = deviceMap d
  /\ bannedDevice d' = bannedDevice d
  /\ (adjustingRange d = true -> onNewZoomLevel d = (d, [])).
Proof. exact (onNewZoomLevel_keeps d). Qed.

(** X4.  When a zoom request (guard free, stored range ordered, span not
    negative) leaves the dialog in sweep mode, the one event it emits
    carries a window that lies within the stored range, whose width is the
    waterfall's span rounded down to an even number, or the width of the
    range when that is smaller, and this width becomes the bandwidth the
    dialog remembers. *)
Theorem zoom_sweep_window_within_range (d : Dialog W) :
  adjustingRange d = false ->
  getMinFreq d <= getMaxFreq d ->
  0 <= getSpanFreq (waterfall (ui d)) ->
  fixedFreqMode (fst (onNewZoomLevel d)) = false ->
  exists min max,
    snd (onNewZoomLevel d) = [EvDetailChanged min max false]
    /\ (getMinFreq d <= min /\ min <= max /\ max <= getMaxFreq d)
    /\ max - min
       = Z.min (2 * Z.quot (getSpanFreq (waterfall (ui d))) 2)
           (getMaxFreq d - getMinFreq d)
    /\ currBw (fst (onNewZoomLevel d)) = max - min.
Proof.
  intros Hguard Hrange Hspan.
  pose proof (quot2_bounds _ Hspan) as Hq.
  unfold onNewZoomLevel. rewrite Hguard. cbn [negb].
  change (getMinFreq (setAdjustingRange true d)) with (getMinFreq d).
  change (getMaxFreq (setAdjustingRange true d)) with (getMaxFreq d).
  match goal with
  | |- context [reinjectWindow ?lo ?hi ?a ?b] =>
      pose proof (reinjectWindow_cases lo hi a b Hrange ltac:(lia)) as Hre;
      destruct (reinjectWindow lo hi a b) as [[[min max] adjLeft] adjRight]
  end.
  destruct Hre as (Hin & Hwidth & _).
  set (d1 := if adjLeft && adjRight then _ else _).
  destruct (belowZoomThreshold (max - min) d1) eqn:Hmode;
    cbn [fixedFreqMode currBw setFixedFreqMode fst snd setAdjustingRange ui];
    rewrite fixedFreqMode_setWfRange; cbn [fixedFreqMode setFixedFreqMode];
    intros Hsweep; [discriminate Hsweep |].
  exists min, max. split; [reflexivity |]. split; [exact Hin |].
  split; [lia |].
  rewrite currBw_setWfRange. reflexivity.
Qed.

(** X5.  Applying [setWfRange] a second time with the same window does
    nothing more in fixed-frequency mode, and in sweep mode only sets the
    waterfall's centre frequency again: the sample rate, the demodulator
    ranges, the filter cut-offs and the horizontal zoom are not touched. *)
Theorem setWfRange_twice_only_recentres a b (d : Dialog W) :
  setWfRange a b (setWfRange a b d)
  = if fixedFreqMode d then setWfRange a b d
    else onWaterfall (setCenterFreq (Z.quot (b + a) 2)) (setWfRange a b d).
Proof.
  pose proof (fixedFreqMode_setWfRange a b d) as Hmode.
  pose proof (currBw_setWfRange a b d) as Hbw.
  pose proof (setWfRange_frame a b d) as (_ & _ & _ & Hmin & _).
  destruct (setWfRange_same_width a b (setWfRange a b d)) as [Hsweep Hfixed].
  destruct (fixedFreqMode d).
  - apply Hfixed; [exact Hmode |]. rewrite Hbw, Hmin. reflexivity.
  - apply Hsweep; [exact Hmode |]. rewrite Hbw. reflexivity.
Qed.

End ZoomFacts.

(** ** Pan requests and the scan button *)

Section PanHandlerFacts.
Import Widgets PanoramicDialog.
Context {W : Type} `{Waterfall W}.

(** X6.  A pan request while the remembered bandwidth fits in the stored
    range emits one event whose window lies within the range.  When the
    requested window stays strictly inside, it is emitted as requested and
    the dialog is left exactly as it was; when it reaches a border, the
    emitted window has the remembered bandwidth as its width and the
    waterfall is centred on it, nothing else changing. *)
Theorem pan_window_within_range freq (d : Dialog W) :
  0 <= currBw d <= getMaxFreq d - getMinFreq d ->
  let half := Z.quot (currBw d) 2 in
  exists min max,
    snd (onNewCenterFreq freq d) = [EvDetailChanged min max (fixedFreqMode d)]
    /\ (getMinFreq d <= min /\ min <= max /\ max <= getMaxFreq d)
    /\ (getMinFreq d < freq - half /\ freq + half < getMaxFreq d ->
        min = freq - half /\ max = freq + half
        /\ fst (onNewCenterFreq freq d) = d)
    /\ (freq - half <= getMinFreq d \/ getMaxFreq d <= freq + half ->
        max - min = currBw d
        /\ fst (onNewCenterFreq freq d)
           = onWaterfall (setCenterFreq (Z.quot (max + min) 2)) d).
Proof.
  intros Hbw half.
  pose proof (panWindow_slides (getMinFreq d) (getMaxFreq d) (currBw d) freq Hbw)
    as Hslide.
  assert (Hborder :
    snd (panWindow (getMinFreq d) (getMaxFreq d) (currBw d) freq)
    = (freq + half >=? getMaxFreq d) || (freq - half <=? getMinFreq d)).
  { unfold panWindow, half.
    destruct (_ >=? _) ; destruct (_ <=? _); reflexivity. }
  unfold onNewCenterFreq.
  destruct (panWindow (getMinFreq d) (getMaxFreq d) (currBw d) freq)
    as [[min max] atBorder].
  cbn [snd] in Hborder. rewrite Z.geb_leb in Hborder.
  destruct Hslide as (H1 & H2 & H3 & Hat & Hin).
  exists min, max.
  destruct atBorder; cbn [fst snd].
  - split; [reflexivity |]. split; [lia |]. split.
    + intros [Hl Hr]. symmetry in Hborder. apply orb_true_iff in Hborder.
      destruct Hborder as [Hb | Hb]; apply Z.leb_le in Hb; fold half in Hb; lia.
    + intros _. split; [apply Hat; reflexivity | reflexivity].
  - split; [reflexivity |]. split; [lia |]. split.
    + intros _. destruct (Hin eq_refl) as [-> ->]. repeat split.
    + intros Hb. symmetry in Hborder. apply orb_false_iff in Hborder.
      destruct Hborder as [Hr Hl].
      apply Z.leb_gt in Hr, Hl. fold half in Hr, Hl. lia.
Qed.

End PanHandlerFacts.

Section ToggleFacts.
Import Widgets PanoramicDialog DialogSlots.
Context {W : Type} `{Waterfall W}.

(** X7.  [onToggleScan] emits exactly one event: [stop] exactly when the
    button was released, and [start] exactly when the button is still
    pressed afterwards.  The caption is "Stop" when the button is left
    pressed and "Start scan" otherwise, the waterfall's running state
    follows the button, and the range, the remembered bandwidth and the mode
    are not changed. *)
Theorem onToggleScan_button_follows_start defaultDevice (d : Dialog W) :
  let d' := fst (onToggleScan defaultDevice d) in
  let events := snd (onToggleScan defaultDevice d) in
  (exists e, events = [e])
  /\ (events = [EvStop] <-> isChecked (scanButton (ui d)) = false)
  /\ (events = [EvStart] <-> isChecked (scanButton (ui d')) = true)
  /\ buttonText (scanButton (ui d'))
     = (if isChecked (scanButton (ui d')) then "Stop" else "Start scan")
  /\ waterfall (ui d')
     = setRunningState (isChecked (scanButton (ui d'))) (waterfall (ui d))
  /\ rangeStartSpin (ui d') = rangeStartSpin (ui d)
  /\ rangeEndSpin (ui d') = rangeEndSpin (ui d)
  /\ currBw d' = currBw d
  /\ fixedFreqMode d' = fixedFreqMode d.
Proof.
  unfold onToggleScan.
  destruct (isChecked (scanButton (ui d))) eqn:Hchecked.
  - destruct ((0 <? Z.of_nat (String.length (bannedDevice d))) && _);
      cbn [fst snd onScanButton onWaterfall setUi ui scanButton isChecked
           buttonText waterfall rangeStartSpin rangeEndSpin currBw
           fixedFreqMode];
      rewrite ?Hchecked;
      repeat split; eauto; try discriminate; intros Habs; inversion Habs.
  - cbn [fst snd onScanButton onWaterfall setUi ui scanButton isChecked
         buttonText waterfall rangeStartSpin rangeEndSpin currBw
         fixedFreqMode].
    rewrite ?Hchecked.
    repeat split; eauto; try discriminate; intros Habs; inversion Habs.
Qed.

(** X8.  When the dialog closes, [run] emits [stop] twice, once from
    [onToggleScan] and once itself, whatever the state of the dialog: the
    button is released with the caption "Start scan", the waterfall is told
    that nothing runs, and the range spin boxes are not changed. *)
Theorem run_emits_stop_twice defaultDevice (d : Dialog W) :
  let d' := fst (runAfterExec defaultDevice d) in
  snd (runAfterExec defaultDevice d) = [EvStop; EvStop]
  /\ scanButton (ui d') = mkButton false "Start scan"
  /\ waterfall (ui d') = setRunningState false (waterfall (ui d))
  /\ rangeStartSpin (ui d') = rangeStartSpin (ui d)
  /\ rangeEndSpin (ui d') = rangeEndSpin (ui d).
Proof.
  unfold runAfterExec, onToggleScan.
  cbn [onScanButton setUi ui scanButton isChecked]. repeat split.
Qed.

End ToggleFacts.

(** ** The range after a change of the LNB offset *)

Section LnbFacts.
Import Widgets PanoramicDialog DialogSlots.
Context {W : Type} `{Waterfall W}.

(** Installing the limits [lo <= hi] on a spin box whose value is not above
    its maximum clamps the value into them. *)
Lemma sb_install_value lo hi s :
  lo <= hi ->
  sb_value s <= sb_maximum s ->
  sb_setMaximum hi (sb_setMinimum lo s)
  = mkSpinBox (clamp lo hi (sb_value s)) lo hi.
Proof.
  intros Hrange Hmax.
  rewrite sb_setMaximum_spec, sb_setMinimum_spec.
  unfold sb_setValue, sb_bound, clamp.
  cbn [sb_value sb_minimum sb_maximum].
  rewrite (Z.min_l lo hi Hrange). f_equal. zcases; lia.
Qed.

Lemma installed_values lo hi (d : Dialog W) :
  lo <= hi ->
  sb_value (rangeStartSpin (ui d)) <= sb_maximum (rangeStartSpin (ui d)) ->
  sb_value (rangeEndSpin (ui d)) <= sb_maximum (rangeEndSpin (ui d)) ->
  let d' :=
    onRangeEndSpin (sb_setMaximum hi)
      (onRangeEndSpin (sb_setMinimum lo)
         (onRangeStartSpin (sb_setMaximum hi)
            (onRangeStartSpin (sb_setMinimum lo) d))) in
  getMinFreq d' = clamp lo hi (getMinFreq d)
  /\ getMaxFreq d' = clamp lo hi (getMaxFreq d)
  /\ fullRangeCheck (ui d') = fullRangeCheck (ui d).
Proof.
  intros Hrange Hs He.
  unfold getMinFreq, getMaxFreq, onRangeEndSpin, onRangeStartSpin, setUi.
  cbn [ui rangeStartSpin rangeEndSpin fullRangeCheck].
  rewrite !sb_install_value by assumption.
  repeat split.
Qed.

(** With valid device limits and an ordered stored range, [setRanges] keeps
    the stored range, clamped into the limits, unless that leaves it empty or
    the full-range box is checked; it then stores the whole span. *)
Lemma setRanges_stored_range dev lo hi (d : Dialog W) :
  lo = Device.getMinFreq dev + getLnbOffset d ->
  hi = Device.getMaxFreq dev + getLnbOffset d ->
  lo <= hi ->
  sb_value (rangeStartSpin (ui d)) <= sb_maximum (rangeStartSpin (ui d)) ->
  sb_value (rangeEndSpin (ui d)) <= sb_maximum (rangeEndSpin (ui d)) ->
  getMinFreq d <= getMaxFreq d ->
  let a := clamp lo hi (getMinFreq d) in
  let b := clamp lo hi (getMaxFreq d) in
  (getMinFreq (setRanges dev d), getMaxFreq (setRanges dev d))
  = if (a =? b) || fullRangeCheck (ui d) then (lo, hi) else (a, b).
Proof.
  intros Hlo Hhi Hrange Hs He Hord a b.
  unfold setRanges. cbv zeta. rewrite <- Hlo, <- Hhi.
  pose proof (limits_installed lo hi d Hrange) as H4.
  destruct (installed_values lo hi d Hrange Hs He) as (Hmin4 & Hmax4 & Hfull4).
  fold a in Hmin4. fold b in Hmax4.
  assert (Hab : a <= b) by (unfold a, b, clamp; lia).
  match goal with
  | |- context [invalidRange ?x] =>
      assert (Hinv : invalidRange x = (a =? b))
  end.
  { unfold invalidRange.
    match goal with
    | |- (Z.abs (?e - ?s) <? 1) = _ =>
        change e with (getMaxFreq
          (onRangeEndSpin (sb_setMaximum hi)
            (onRangeEndSpin (sb_setMinimum lo)
              (onRangeStartSpin (sb_setMaximum hi)
                (onRangeStartSpin (sb_setMinimum lo) d)))));
        change s with (getMinFreq
          (onRangeEndSpin (sb_setMaximum hi)
            (onRangeEndSpin (sb_setMinimum lo)
              (onRangeStartSpin (sb_setMaximum hi)
                (onRangeStartSpin (sb_setMinimum lo) d)))))
    end.
    rewrite Hmin4, Hmax4.
    destruct (Z.ltb_spec (Z.abs (b - a)) 1); destruct (Z.eqb_spec a b);
      try reflexivity; lia. }
  rewrite Hinv, Hfull4.
  destruct ((a =? b) || fullRangeCheck (ui d)).
  - destruct (limits_kept_by_setValue lo hi lo hi _ Hrange H4)
      as (H5 & Hmin5 & Hmax5).
    destruct (adjustRanges_orders lo hi _ H5) as (_ & Hmin & Hmax).
    rewrite Hmin, Hmax, Hmin5, Hmax5. unfold clamp. f_equal; lia.
  - destruct (adjustRanges_orders lo hi _ H4) as (_ & Hmin & Hmax).
    rewrite Hmin, Hmax, Hmin4, Hmax4. f_equal; lia.
Qed.

(** X9.  [onLnbOffsetChanged] with no known device selected changes
    nothing.  With a device selected whose limits, shifted by the LNB
    offset, are valid, the ordered range the (clamping) spin boxes held is
    kept, clamped into the shifted limits; when that leaves it empty, or when
    the full-range box is checked, the whole shifted span of the device is
    stored instead. *)
Theorem onLnbOffsetChanged_keeps_clamped_range (d : Dialog W) :
  sb_value (rangeStartSpin (ui d)) <= sb_maximum (rangeStartSpin (ui d)) ->
  sb_value (rangeEndSpin (ui d)) <= sb_maximum (rangeEndSpin (ui d)) ->
  getMinFreq d <= getMaxFreq d ->
  match getSelectedDevice d with
  | None => onLnbOffsetChanged d = d
  | Some dev =>
      let lo := Device.getMinFreq dev + getLnbOffset d in
      let hi := Device.getMaxFreq dev + getLnbOffset d in
      let a := clamp lo hi (getMinFreq d) in
      let b := clamp lo hi (getMaxFreq d) in
      lo <= hi ->
      (getMinFreq (onLnbOffsetChanged d), getMaxFreq (onLnbOffsetChanged d))
      = if (a =? b) || fullRangeCheck (ui d) then (lo, hi) else (a, b)
  end.
Proof.
  intros Hs He Hord. unfold onLnbOffsetChanged.
  destruct (getSelectedDevice d) as [dev |]; [| reflexivity].
  cbv zeta. intros Hrange.
  apply (setRanges_stored_range dev _ _ d eq_refl eq_refl Hrange Hs He Hord).
Qed.

End LnbFacts.

Section LnbWitness.
Import Widgets PanoramicDialog DialogSlots.

(** An RTL-SDR behind a 76 MHz LNB offset: the stored range 88-108 MHz
    begins below the shifted lower limit of 100 MHz. *)
Lemma onLnbOffsetChanged_keeps_clamped_range_witness :
  let d :=
    mkDialog
      (mkUi (plainWaterfall 100000000 0 2400000)
         (mkSpinBox 88000000 24000000 1766000000)
         (mkSpinBox 108000000 24000000 1766000000) 76000000 false 100
         (mkButton false "Start scan") "RTL-SDR")
      {[ "RTL-SDR" := rtlsdr ]} "" false false 2400000 0 in
  (sb_value (rangeStartSpin (ui d)) <= sb_maximum (rangeStartSpin (ui d))
   /\ sb_value (rangeEndSpin (ui d)) <= sb_maximum (rangeEndSpin (ui d))
   /\ getMinFreq d <= getMaxFreq d)
  /\ (getMinFreq (onLnbOffsetChanged d), getMaxFreq (onLnbOffsetChanged d))
     = (100000000, 108000000).
Proof.
  intros d.
  assert (Hs : sb_value (rangeStartSpin (ui d)) <= sb_maximum (rangeStartSpin (ui d)))
    by (apply Z.leb_le; reflexivity).
  assert (He : sb_value (rangeEndSpin (ui d)) <= sb_maximum (rangeEndSpin (ui d)))
    by (apply Z.leb_le; reflexivity).
  assert (Hord : getMinFreq d <= getMaxFreq d) by (apply Z.leb_le; reflexivity).
  split; [repeat split; assumption |].
  pose proof (onLnbOffsetChanged_keeps_clamped_range d Hs He Hord) as Hthm.
  change (getSelectedDevice d) with (Some rtlsdr) in Hthm. cbv zeta in Hthm.
  rewrite Hthm; [reflexivity | apply Z.leb_le; reflexivity].
Defined.

End LnbWitness.

(** ** The staleness filter at its edges *)

Section FilterEdgeFacts.
Import Timeval UIMediator.

(** X10.  With the lag filter disabled, [feedPSD] accepts every frame: for
    each frame it sets the sample rate and the process rate, feeds the
    averager and feeds the display, in this order, and it never touches the
    delay estimate. *)
Theorem feedAll_filter_disabled cfg frames st :
  enableMsgTTL cfg = false ->
  fst (feedAll cfg frames st) = st
  /\ snd (feedAll cfg frames st)
     = map (fun f : Frame =>
              [ SetSampleRate (sampleRate (snd f));
                SetProcessRate (measuredSampleRate (snd f));
                AveragerFeed (snd f);
                SpectrumFeed (timeStamp (snd f)) (looped (snd f)) ])
         frames.
Proof.
  intros Hoff. induction frames as [| [now msg] rest [IHst IHtrace]].
  - split; reflexivity.
  - cbn [feedAll]. unfold feedPSD, checkExpired. rewrite Hoff.
    cbn [negb]. destruct (feedAll cfg rest st) as [st2 trace].
    cbn [fst snd map] in *. subst. split; reflexivity.
Qed.



(** The filter of the specification keeps, as its estimate, the smallest
    delay seen. *)
Lemma run_estimate lag delays : forall m,
  fst (StalenessFilter.run lag (Some m) delays)
  = Some (Delays.minimum m delays).
Proof.
  induction delays as [| x rest IH]; intros m.
  - reflexivity.
  - cbn [StalenessFilter.run StalenessFilter.step].
    specialize (IH (if x <? m then x else m)).
    destruct (StalenessFilter.run lag (Some (if x <? m then x else m)) rest)
      as [m2 oks].
    cbn [fst] in *. rewrite IH. unfold Delays.minimum. cbn [fold_left].
    do 2 f_equal. destruct (Z.ltb_spec x m); lia.
Qed.

(** X12.  With the lag filter enabled, the delay estimate held after any
    non-empty sequence of frames is the smallest delay observed among all of
    them, dropped frames included; it does not depend on the time to
    live. *)
Theorem delay_estimate_is_minimum cfg f frames :
  enableMsgTTL cfg = true ->
  0 <= msgTTL cfg ->
  Forall frameWellFormed (f :: frames) ->
  minDelayOf (fst (feedAll cfg (f :: frames) freshSession))
  = Some (Delays.minimum (observedDelay f) (map observedDelay frames)).
Proof.
  intros Hen Httl Hwf.
  pose proof (feedAll_refines_filter cfg (f :: frames) freshSession Hen Httl Hwf)
    as Href.
  assert (Hfresh : estimateNormalized freshSession)
    by (intros Habs; discriminate Habs).
  specialize (Href Hfresh).
  apply (f_equal fst) in Href. cbn [fst] in Href. rewrite Href.
  cbn [map StalenessFilter.run StalenessFilter.step minDelayOf freshSession
       haveRtDelta].
  pose proof (run_estimate (msgTTL cfg * 1000) (map observedDelay frames)
                (observedDelay f)) as Hrun.
  destruct (StalenessFilter.run (msgTTL cfg * 1000) (Some (observedDelay f))
              (map observedDelay frames)) as [m2 oks].
  exact Hrun.
Qed.

(** Delays of 100, 80, 150 and 90 ms under a 50 ms limit: the estimate ends
    at 80 ms. *)
Lemma delay_estimate_is_minimum_witness :
  let cfg := mkGuiConfig true 50 in
  (enableMsgTTL cfg = true /\ 0 <= msgTTL cfg)
  /\ minDelayOf
       (fst (feedAll cfg (map frameWithDelay [100; 80; 150; 90]) freshSession))
     = Some 80000.
Proof.
  intros cfg.
  assert (Hen : enableMsgTTL cfg = true) by reflexivity.
  assert (Httl : 0 <= msgTTL cfg) by (apply Z.leb_le; reflexivity).
  split; [split; assumption |].
  change (map frameWithDelay [100; 80; 150; 90])
    with (frameWithDelay 100 :: map frameWithDelay [80; 150; 90]).
  rewrite (delay_estimate_is_minimum cfg (frameWithDelay 100)
             (map frameWithDelay [80; 150; 90]) Hen Httl).
  - reflexivity.
  - repeat (apply List.Forall_cons;
            [split; (split; [apply Z.leb_le | apply Z.ltb_lt]; reflexivity) |]).
    apply List.Forall_nil.
Defined.

End FilterEdgeFacts.

(** ** Gains, the device list and the export dialog *)

Section GainKeyFacts.
Import PanoramicDialogConfig Gains.

Lemma append_inj_l (p a b : string) : p +:+ a = p +:+ b -> a = b.
Proof.
  induction p as [| ch p IH]; intros Heq.
  - exact Heq.
  - apply IH. injection Heq as Heq. exact Heq.
Qed.

Lemma fullName_inj dev name name' :
  fullName dev name = fullName dev name' -> name = name'.
Proof.
  unfold fullName. intros Heq.
  do 3 apply append_inj_l in Heq. exact Heq.
Qed.

(** X13.  Storing a gain of a device leaves the other gains of that device
    as they were: for a different gain name, [getGain] and [hasGain] answer
    as before. *)
Theorem setGain_keeps_other_gains dev name name' v (c : PanoramicDialogConfig) :
  name <> name' ->
  getGain dev name' (setGain dev name v c) = getGain dev name' c
  /\ hasGain dev name' (setGain dev name v c) = hasGain dev name' c.
Proof.
  intros Hne. unfold getGain, hasGain, setGain. cbn [gains].
  rewrite lookup_insert_ne; [split; reflexivity |].
  intros Heq. apply Hne. exact (fullName_inj dev name name' Heq).
Qed.

(** Two gains of a HackRF. *)
Lemma setGain_keeps_other_gains_witness :
  "LNA" <> "VGA"
  /\ getGain "hackrf" "VGA"
       (setGain "hackrf" "LNA" Float32.one
          (setGain "hackrf" "VGA" (Float32.of_Z 20)
             (mkConfig false 0 0 0 "" "" 0 "" "" "" ∅)))
     = Float32.of_Z 20.
Proof.
  assert (Hne : "LNA" <> "VGA") by discriminate.
  split; [exact Hne |].
  destruct (setGain_keeps_other_gains "hackrf" "LNA" "VGA" Float32.one
              (setGain "hackrf" "VGA" (Float32.of_Z 20)
                 (mkConfig false 0 0 0 "" "" 0 "" "" "" ∅)) Hne) as [Hget _].
  rewrite Hget. vm_compute. reflexivity.
Defined.

Lemma fullName_dot dev mid name :
  fullName (dev +:+ "." +:+ mid) name = fullName dev (mid +:+ "." +:+ name).
Proof.
  unfold fullName.
  rewrite <- !append_assoc. reflexivity.
Qed.

(** X14.  The key of a gain does not separate the device from the gain name:
    a gain stored for device "a.b" under the name "c" is the gain that device
    "a" has under the name "b.c". *)
Theorem gain_keys_alias_across_dots dev mid name v (c : PanoramicDialogConfig) :
  getGain dev (mid +:+ "." +:+ name) (setGain (dev +:+ "." +:+ mid) name v c) = v
  /\ hasGain dev (mid +:+ "." +:+ name) (setGain (dev +:+ "." +:+ mid) name v c)
     = true.
Proof.
  unfold getGain, hasGain, setGain. cbn [gains].
  rewrite fullName_dot, lookup_insert_eq. split; reflexivity.
Qed.

(** What the loop stores under a key. *)
Lemma deserializeGains_lookup getFloat names : forall gains key,
  deserializeGains getFloat names gains !! key
  = if bool_decide (key ∈ names) && isGainField key
    then Some (getFloat key Float32.zero)
    else gains !! key.
Proof.
  induction names as [| name rest IH]; intros gains key.
  - cbn [deserializeGains]. rewrite bool_decide_eq_false_2; [reflexivity |].
    apply not_elem_of_nil.
  - cbn [deserializeGains]. rewrite IH.
    assert (Hstep :
      (if isGainField name
       then <[name := getFloat name Float32.zero]> gains
       else gains) !! key
      = if bool_decide (key = name) && isGainField key
        then Some (getFloat key Float32.zero)
        else gains !! key).
    { destruct (decide (key = name)) as [-> | Hne].
      - rewrite bool_decide_eq_true_2 by reflexivity. cbn [andb].
        destruct (isGainField name);
          [apply lookup_insert_eq | reflexivity].
      - rewrite bool_decide_eq_false_2 by exact Hne. cbn [andb].
        destruct (isGainField name);
          [apply lookup_insert_ne; congruence | reflexivity]. }
    rewrite Hstep.
    rewrite (bool_decide_ext (key ∈ name :: rest) (key = name \/ key ∈ rest))
      by apply elem_of_cons.
    destruct (isGainField key); rewrite ?andb_false_r; [| reflexivity].
    rewrite !andb_true_r.
    destruct (decide (key ∈ rest)); destruct (decide (key = name));
      repeat first
        [ rewrite bool_decide_eq_true_2 by tauto
        | rewrite bool_decide_eq_false_2 by tauto ];
      reflexivity.
Qed.

Lemma isGainField_fullName dev name : isGainField (fullName dev name) = true.
Proof.
  apply bool_decide_eq_true_2. unfold fullName.
  change ("gain." +:+ dev +:+ "." +:+ name)
    with ("gain." +:+ (dev +:+ "." +:+ name)).
  destruct (dev +:+ "." +:+ name); reflexivity.
Qed.

(** X15.  The loop that closes [deserialize]: afterwards a gain has the value
    the object holds under its key when the object has a field of that name,
    and its former value otherwise (gains the object does not mention are
    kept, not cleared); fields whose names do not begin with "gain." are
    never stored among the gains. *)
Theorem loadGains_reads_gain_fields getFloat names dev name key
    (c : PanoramicDialogConfig) :
  let c' := loadGains getFloat names c in
  getGain dev name c'
  = (if bool_decide (fullName dev name ∈ names)
     then getFloat (fullName dev name) Float32.zero
     else getGain dev name c)
  /\ hasGain dev name c'
     = bool_decide (fullName dev name ∈ names) || hasGain dev name c
  /\ (isGainField key = false -> gains c' !! key = gains c !! key).
Proof.
  unfold getGain, hasGain, loadGains. cbn [gains].
  rewrite !deserializeGains_lookup, isGainField_fullName, andb_true_r.
  split; [| split].
  - destruct (bool_decide (fullName dev name ∈ names)); reflexivity.
  - destruct (bool_decide (fullName dev name ∈ names)); reflexivity.
  - intros ->. rewrite andb_false_r. reflexivity.
Qed.

(** X16.  After [onGainChanged] has stored a value for a gain of the selected
    device, [refreshGains] for that device hands this value to the control of
    that gain and to the other controls what it handed them before; with no
    known device selected, [onGainChanged] stores nothing. *)
Theorem refreshGains_after_onGainChanged driver descriptions name v
    (c : PanoramicDialogConfig) :
  refreshGains driver descriptions (onGainChanged (Some driver) name v c)
  = map (fun control : string * Float32.float =>
           if bool_decide (fst control = name) then (name, v) else control)
      (refreshGains driver descriptions c)
  /\ refreshGains driver descriptions (onGainChanged None name v c)
     = refreshGains driver descriptions c.
Proof.
  split; [| reflexivity].
  unfold refreshGains, onGainChanged. rewrite map_map.
  apply map_ext. intros p. cbn [fst].
  unfold hasGain, getGain, setGain. cbn [gains].
  destruct (decide (gainName p = name)) as [-> | Hne].
  - rewrite bool_decide_eq_true_2 by reflexivity.
    rewrite lookup_insert_eq. reflexivity.
  - rewrite bool_decide_eq_false_2 by exact Hne.
    rewrite lookup_insert_ne; [reflexivity |].
    intros Heq. apply Hne. symmetry. exact (fullName_inj driver name _ Heq).
Qed.

End GainKeyFacts.

Section DeviceListFacts.
Import Widgets PanoramicDialog DialogSlots.

Lemma populateDevices_spec avail devices : forall m items name,
  let r := populateDevices avail devices m items in
  (In name (snd r)
   <-> In name items
       \/ exists dev, In dev devices /\ listed avail dev = true
                      /\ Device.getDesc dev = name)
  /\ (forall dev, fst r !! name = Some dev ->
        m !! name = Some dev
        \/ (In dev devices /\ listed avail dev = true
            /\ Device.getDesc dev = name))
  /\ (is_Some (fst r !! name)
      <-> is_Some (m !! name)
          \/ exists dev, In dev devices /\ listed avail dev = true
                         /\ Device.getDesc dev = name).
Proof.
  induction devices as [| i rest IH]; intros m items name; cbn zeta.
  - cbn [populateDevices fst snd In].
    repeat split; try tauto; try (intros [? | (? & [] & _)]; tauto).
  - cbn [populateDevices].
    destruct (listed avail i) eqn:Hok.
    + destruct (IH (<[Device.getDesc i := i]> m)
                  (items ++ [Device.getDesc i]) name) as (H1 & H2 & H3).
      cbv zeta in H1, H2, H3.
      split; [| split].
      * rewrite H1, in_app_iff. cbn [In]. split.
        -- intros [[Hin | [Heq | []]] | (dev & Hin & Hl & Hd)].
           ++ left. exact Hin.
           ++ right. exists i. auto.
           ++ right. exists dev. auto.
        -- intros [Hin | (dev & [Heq | Hin] & Hl & Hd)].
           ++ left. left. exact Hin.
           ++ subst dev. left. right. left. exact Hd.
           ++ right. exists dev. auto.
      * intros dev Hlook. destruct (H2 dev Hlook) as [Hm | (Hin & Hl & Hd)].
        -- destruct (decide (Device.getDesc i = name)) as [Heq | Hne].
           ++ rewrite Heq, lookup_insert_eq in Hm. injection Hm as <-.
              right. cbn [In]. auto.
           ++ rewrite lookup_insert_ne in Hm by exact Hne. left. exact Hm.
        -- right. cbn [In]. auto.
      * rewrite H3. split.
        -- intros [Hm | (dev & Hin & Hl & Hd)].
           ++ destruct (decide (Device.getDesc i = name)) as [Heq | Hne].
              ** right. exists i. cbn [In]. auto.
              ** rewrite lookup_insert_ne in Hm by exact Hne. left. exact Hm.
           ++ right. exists dev. cbn [In]. auto.
        -- intros [Hm | (dev & [Heq | Hin] & Hl & Hd)].
           ++ left. destruct (decide (Device.getDesc i = name)) as [Heq | Hne].
              ** rewrite Heq, lookup_insert_eq. eauto.
              ** rewrite lookup_insert_ne by exact Hne. exact Hm.
           ++ subst dev. left. rewrite Hd, lookup_insert_eq. eauto.
           ++ right. exists dev. auto.
    + destruct (IH m items name) as (H1 & H2 & H3).
      cbv zeta in H1, H2, H3.
      split; [| split].
      * rewrite H1. split.
        -- intros [Hin | (dev & Hin & Hl & Hd)]; [left; exact Hin |].
           right. exists dev. cbn [In]. auto.
        -- intros [Hin | (dev & [Heq | Hin] & Hl & Hd)].
           ++ left. exact Hin.
           ++ subst dev. congruence.
           ++ right. exists dev. auto.
      * intros dev Hlook. destruct (H2 dev Hlook) as [Hm | (Hin & Hl & Hd)].
        -- left. exact Hm.
        -- right. cbn [In]. auto.
      * rewrite H3. split.
        -- intros [Hm | (dev & Hin & Hl & Hd)]; [left; exact Hm |].
           right. exists dev. cbn [In]. auto.
        -- intros [Hm | (dev & [Heq | Hin] & Hl & Hd)].
           ++ left. exact Hm.
           ++ subst dev. congruence.
           ++ right. exists dev. auto.
Qed.

(** X17.  After [populateDeviceCombo], the names in the device combo are
    exactly the keys of the device map, so that every item resolves in
    [getSelectedDevice]; a name is listed exactly when some device of the
    library has it as description, has a positive maximum frequency and is
    available; and the device found under a name carries that description and
    passed both tests. *)
Theorem populateDeviceCombo_items_resolve avail devices name :
  let m := fst (populateDeviceCombo avail devices) in
  let items := snd (populateDeviceCombo avail devices) in
  (In name items <-> is_Some (m !! name))
  /\ (forall dev, m !! name = Some dev ->
        Device.getDesc dev = name
        /\ Device.getMaxFreq dev > 0
        /\ avail dev = true
        /\ In dev devices)
  /\ (In name items
      <-> exists dev, In dev devices /\ Device.getDesc dev = name
                      /\ Device.getMaxFreq dev > 0 /\ avail dev = true).
Proof.
  cbv zeta. unfold populateDeviceCombo.
  destruct (populateDevices_spec avail devices ∅ [] name) as (H1 & H2 & H3).
  cbv zeta in H1, H2, H3.
  assert (Hlisted : forall dev, listed avail dev = true
                    <-> Device.getMaxFreq dev > 0 /\ avail dev = true).
  { intros dev. unfold listed. rewrite andb_true_iff, Z.gtb_ltb, Z.ltb_lt.
    split; intros [Hm Ha]; split; (exact Ha || lia). }
  split; [| split].
  - rewrite H1, H3, lookup_empty. cbn [In].
    split; (intros [Habs | Hex]; [| right; exact Hex]).
    + contradiction.
    + destruct Habs as [? Habs]. discriminate Habs.
  - intros dev Hlook. destruct (H2 dev Hlook) as [Habs | (Hin & Hl & Hd)].
    + rewrite lookup_empty in Habs. discriminate Habs.
    + apply Hlisted in Hl. tauto.
  - rewrite H1. cbn [In]. split.
    + intros [[] | (dev & Hin & Hl & Hd)]. exists dev.
      apply Hlisted in Hl. tauto.
    + intros (dev & Hin & Hd & Hmax & Hav). right. exists dev.
      rewrite Hlisted. tauto.
Qed.

End DeviceListFacts.

Section OnExportFacts.
Import SavedSpectrum ExportDialog.
Variable showFloat : nat -> Float32.float -> string.

Lemma exportToFile_refused path s fs :
  canOpenForWriting fs path = false ->
  exportToFile showFloat path s fs = (false, fs).
Proof. intros Hno. unfold exportToFile. rewrite Hno. reflexivity. Qed.

Lemma exportToFile_accepted path s fs :
  canOpenForWriting fs path = true ->
  fst (exportToFile showFloat path s fs) = true.
Proof. intros Hyes. unfold exportToFile. rewrite Hyes. reflexivity. Qed.

(** X18.  [onExport] keeps asking for a file until the dialog is dismissed or
    an export succeeds.  After any number of chosen paths that cannot be
    opened for writing, each answered by one warning, a dismissed dialog ends
    the loop with the file system untouched, and a writable path ends it with
    the spectrum exported there; a path that cannot be opened makes it ask
    again.  While every answer is such a path, the loop does not end. *)
Theorem onExport_asks_until_done failed answer rest s fs warnings :
  Forall (fun path => canOpenForWriting fs path = false) failed ->
  let asked := (warnings + length failed)%nat in
  onExport showFloat (map Some failed ++ answer :: rest) s fs warnings
  = match answer with
    | None => Some (fs, asked)
    | Some path =>
        if canOpenForWriting fs path
        then Some (snd (exportToFile showFloat path s fs), asked)
        else onExport showFloat rest s fs (S asked)
    end
  /\ onExport showFloat (map Some failed) s fs warnings = None.
Proof.
  intros Hfailed. revert warnings.
  induction Hfailed as [| path failed Hno _ IH]; intros warnings; cbv zeta.
  - cbn [map app length onExport]. rewrite Nat.add_0_r.
    split; [| reflexivity].
    destruct answer as [path |]; [| reflexivity].
    destruct (canOpenForWriting fs path) eqn:Hcan.
    + pose proof (exportToFile_accepted path s fs Hcan) as Hok.
      destruct (exportToFile showFloat path s fs) as [ok fs'].
      cbn [fst snd] in *. subst ok. reflexivity.
    + rewrite (exportToFile_refused path s fs Hcan). reflexivity.
  - cbn [map app length onExport].
    rewrite (exportToFile_refused path s fs Hno). cbn [negb].
    specialize (IH (S warnings)). cbv zeta in IH.
    replace (warnings + S (length failed))%nat
      with (S warnings + length failed)%nat by lia.
    exact IH.
Qed.

End OnExportFacts.

(** ** The dialog during a scan *)

Section SessionFacts.
Import Widgets PanoramicDialog Session.
Context {W : Type} `{Waterfall W} `{WaterfallData W}.

(** What no action of a scan changes. *)
Lemma act_frame a (p : Panel W) :
  running (act a p) = running p
  /\ (running p = true -> dialogConfig (act a p) = dialogConfig p)
  /\ rangeStartSpin (ui (dialog (act a p))) = rangeStartSpin (ui (dialog p))
  /\ rangeEndSpin (ui (dialog (act a p))) = rangeEndSpin (ui (dialog p))
  /\ minBwForZoom (dialog (act a p)) = minBwForZoom (dialog p)
  /\ (forall e, enabled p = mkEnabled false false false false false false false e ->
        exists e', enabled (act a p)
                   = mkEnabled false false false false false false false e').
Proof.
  destruct a as [start end_ data | v | | freq]; cbn [act].
  - unfold feed.
    destruct (negb (freqStart p =? start) || negb (freqEnd p =? end_)).
    + destruct (setWfRange_frame start end_ (setAdjustingRange true (dialog p)))
        as (Hs & He & _ & Hbw & _).
      cbn [running dialogConfig dialog enabled onWaterfall setUi ui
           rangeStartSpin rangeEndSpin minBwForZoom setAdjustingRange] in *.
      rewrite Hs, He, Hbw. repeat split.
      intros e ->. eauto.
    + cbn [running dialogConfig dialog enabled onWaterfall setUi ui
           rangeStartSpin rangeEndSpin minBwForZoom].
      repeat split. intros e ->. eauto.
  - unfold setSampleRateSpin, onSampleRateSpinChanged.
    cbn [running sampleRateSpin].
    destruct (_ =? _).
    + repeat split. intros e ->. eauto.
    + destruct (running p); cbn [negb running dialogConfig dialog enabled];
        repeat split; try discriminate; intros e ->; eauto.
  - destruct (onNewZoomLevel_keeps (dialog p)) as (Hs & He & _ & Hbw & _).
    unfold onDialog. cbn [running dialogConfig dialog enabled].
    rewrite Hs, He, Hbw. repeat split. intros e ->. eauto.
  - unfold onDialog. cbn [running dialogConfig dialog enabled].
    unfold onNewCenterFreq.
    destruct (panWindow _ _ _ _) as [[min max] atBorder].
    destruct atBorder; repeat split; intros e ->; eauto.
Qed.

Lemma actAll_frame actions : forall p : Panel W,
  running (actAll actions p) = running p
  /\ (running p = true -> dialogConfig (actAll actions p) = dialogConfig p)
  /\ rangeStartSpin (ui (dialog (actAll actions p)))
     = rangeStartSpin (ui (dialog p))
  /\ rangeEndSpin (ui (dialog (actAll actions p)))
     = rangeEndSpin (ui (dialog p))
  /\ minBwForZoom (dialog (actAll actions p)) = minBwForZoom (dialog p)
  /\ (forall e, enabled p = mkEnabled false false false false false false false e ->
        exists e', enabled (actAll actions p)
                   = mkEnabled false false false false false false false e').
Proof.
  induction actions as [| a rest IH]; intros p.
  - cbn [actAll fold_left]. repeat split. intros e ->. eauto.
  - change (actAll (a :: rest) p) with (actAll rest (act a p)).
    destruct (act_frame a p) as (Hr & Hc & Hs & He & Hbw & Hen).
    destruct (IH (act a p)) as (Hr' & Hc' & Hs' & He' & Hbw' & Hen').
    rewrite Hr', Hr, Hs', Hs, He', He, Hbw', Hbw.
    repeat split.
    + intros Hrun. rewrite Hc' by (rewrite Hr; exact Hrun). exact (Hc Hrun).
    + intros e Hp. destruct (Hen e Hp) as [e1 He1]. exact (Hen' e1 He1).
Qed.

(** X19.  From [setRunning(true)] on, whatever frames arrive, whatever zoom
    and pan requests are made and whatever is written into the sample-rate
    spin box, the dialog stays running, its configuration is not changed (the
    sample rate in particular is not persisted), and the device, antenna,
    full-range, range, LNB and sample-rate controls stay disabled.
    [setRunning(false)] then puts the configured sample rate back into the
    spin box, within the limits of the box, still without changing the
    configuration, and enables the spin box again. *)
Theorem scan_locks_controls_and_configuration actions (p : Panel W) :
  let p' := actAll actions (setRunning true p) in
  running p' = true
  /\ dialogConfig p' = dialogConfig p
  /\ (exists e,
        enabled p' = mkEnabled false false false false false false false e)
  /\ dialogConfig (setRunning false p') = dialogConfig p
  /\ sb_value (sampleRateSpin (setRunning false p'))
     = sb_bound (sampleRateSpin p')
         (PanoramicDialogConfig.sampRate (dialogConfig p))
  /\ sampleRateSpinEnabled (enabled (setRunning false p')) = true.
Proof.
  cbv zeta.
  set (p0 := setRunning true p).
  assert (Hstart : running p0 = true /\ dialogConfig p0 = dialogConfig p
               /\ exists e, enabled p0
                  = mkEnabled false false false false false false false e).
  { unfold p0, setRunning, refreshUi.
    destruct (true && negb (running p)); cbn [andb negb running dialogConfig enabled];
      repeat split; eauto. }
  destruct Hstart as (Hrun0 & Hcfg0 & e0 & Hen0).
  destruct (actAll_frame actions p0) as (Hr & Hc & _ & _ & _ & Hen).
  rewrite Hrun0 in Hr. specialize (Hc Hrun0). rewrite Hcfg0 in Hc.
  destruct (Hen e0 Hen0) as [e' He'].
  set (p' := actAll actions p0) in *.
  split; [exact Hr |]. split; [exact Hc |]. split; [eauto |].
  unfold setRunning. rewrite Hr. cbn [andb negb].
  unfold setSampleRateSpin, onSampleRateSpinChanged.
  cbn [running sampleRateSpin]. rewrite Hr. cbn [negb].
  destruct (_ =? _);
    unfold refreshUi; cbn [dialogConfig sampleRateSpin enabled running negb
                            sampleRateSpinEnabled sb_setValue sb_value];
    rewrite Hc; repeat split.
Qed.

(** X20.  Neither a frame that arrives, nor a zoom or pan request, nor a
    change of the sample-rate spin box changes the stored range or the
    minimum zoom bandwidth. *)
Theorem scan_keeps_stored_range actions (p : Panel W) :
  getMinFreq (dialog (actAll actions p)) = getMinFreq (dialog p)
  /\ getMaxFreq (dialog (actAll actions p)) = getMaxFreq (dialog p)
  /\ minBwForZoom (dialog (actAll actions p)) = minBwForZoom (dialog p).
Proof.
  destruct (actAll_frame actions p) as (_ & _ & Hs & He & Hbw & _).
  unfold getMinFreq, getMaxFreq. rewrite Hs, He, Hbw. repeat split.
Qed.

Lemma actAll_app xs ys (p : Panel W) :
  actAll (xs ++ ys) p = actAll ys (actAll xs p).
Proof. unfold actAll. apply fold_left_app. Qed.

Lemma act_not_feed a (p : Panel W) :
  isFeed a = false ->
  saved (act a p) = saved p
  /\ freqStart (act a p) = freqStart p
  /\ freqEnd (act a p) = freqEnd p
  /\ exportButtonEnabled (enabled (act a p)) = exportButtonEnabled (enabled p).
Proof.
  destruct a as [start end_ data | v | | freq]; cbn [isFeed act];
    intros Hno; try discriminate Hno.
  - unfold setSampleRateSpin, onSampleRateSpinChanged.
    cbn [running sampleRateSpin].
    destruct (_ =? _); [repeat split |].
    destruct (negb (running p)); repeat split.
  - repeat split.
  - repeat split.
Qed.

Lemma actAll_not_feed actions : forall p : Panel W,
  Forall (fun a => isFeed a = false) actions ->
  saved (actAll actions p) = saved p
  /\ freqStart (actAll actions p) = freqStart p
  /\ freqEnd (actAll actions p) = freqEnd p
  /\ exportButtonEnabled (enabled (actAll actions p))
     = exportButtonEnabled (enabled p).
Proof.
  induction actions as [| a rest IH]; intros p Hno.
  - repeat split.
  - inversion Hno as [| x xs Ha Hrest]; subst.
    change (actAll (a :: rest) p) with (actAll rest (act a p)).
    destruct (IH (act a p) Hrest) as (H1 & H2 & H3 & H4).
    destruct (act_not_feed a p Ha) as (H1' & H2' & H3' & H4').
    rewrite H1, H2, H3, H4, H1', H2', H3', H4'. repeat split.
Qed.

Lemma feed_records start end_ data (p : Panel W) :
  saved (feed start end_ data p) = SavedSpectrum.mkSavedSpectrum start end_ data
  /\ freqStart (feed start end_ data p) = start
  /\ freqEnd (feed start end_ data p) = end_
  /\ exportButtonEnabled (enabled (feed start end_ data p)) = true.
Proof.
  unfold feed.
  destruct (Z.eqb_spec (freqStart p) start) as [Hs | Hs];
    destruct (Z.eqb_spec (freqEnd p) end_) as [He | He];
    cbn [negb orb saved freqStart freqEnd enabled exportButtonEnabled];
    repeat split; assumption.
Qed.

(** X21.  The spectrum kept for export is the last frame fed, with its
    bounds, whatever was fed before and whatever zoom, pan and sample-rate
    changes came after it; and from the first frame on the export button is
    enabled. *)
Theorem saved_spectrum_is_last_frame before start end_ data later (p : Panel W) :
  Forall (fun a => isFeed a = false) later ->
  let p' := actAll (before ++ Feed start end_ data :: later) p in
  saved p' = SavedSpectrum.mkSavedSpectrum start end_ data
  /\ exportButtonEnabled (enabled p') = true.
Proof.
  intros Hlater. cbv zeta.
  rewrite actAll_app.
  change (actAll (Feed start end_ data :: later) (actAll before p))
    with (actAll later (feed start end_ data (actAll before p))).
  destruct (actAll_not_feed later (feed start end_ data (actAll before p)) Hlater)
    as (H1 & _ & _ & H4).
  destruct (feed_records start end_ data (actAll before p)) as (H1' & _ & _ & H4').
  rewrite H1, H4, H1', H4'. split; reflexivity.
Qed.

(** X22.  A frame with the same bounds as the frame before it, whatever zoom,
    pan and sample-rate changes came in between, only hands its data to the
    waterfall: [setWfRange] is not run, and the re-entrancy guard, the mode
    and the remembered bandwidth are left as they are. *)
Theorem feed_same_bounds_only_pushes_data start end_ data1 between data2
    (p : Panel W) :
  Forall (fun a => isFeed a = false) between ->
  let p1 := actAll between (feed start end_ data1 p) in
  dialog (feed start end_ data2 p1)
  = onWaterfall (setNewFftData data2) (dialog p1).
Proof.
  intros Hbetween. cbv zeta.
  destruct (actAll_not_feed between (feed start end_ data1 p) Hbetween)
    as (_ & Hs & He & _).
  destruct (feed_records start end_ data1 p) as (_ & Hs' & He' & _).
  rewrite Hs' in Hs. rewrite He' in He.
  unfold feed at 1. rewrite Hs, He, !Z.eqb_refl. reflexivity.
Qed.

End SessionFacts.

(** ** More handlers on concrete inputs *)

Section DialogScenarios.
Import Widgets PanoramicDialog.

(** 145.8 MHz, on either side of zero, is counted in MHz. *)
Lemma getFrequencyUnits_largest_unit_witness :
  - 2 ^ 63 < -145800000 < 2 ^ 63
  /\ getFrequencyUnits 145800000 = getFrequencyUnits (-145800000)
  /\ getFrequencyUnits (-145800000) = 1000000.
Proof.
  assert (Hrange : - 2 ^ 63 < -145800000 < 2 ^ 63)
    by (split; apply Z.ltb_lt; reflexivity).
  split; [exact Hrange |].
  destruct (getFrequencyUnits_largest_unit (-145800000) Hrange) as (Hsym & _).
  split; [exact Hsym | reflexivity].
Defined.

(** A 10 MHz window that begins 3 MHz below the FM band is moved up by 3 MHz. *)
Lemma reinjectWindow_within_range_witness :
  (88000000 <= 108000000 /\ 85000000 <= 95000000)
  /\ reinjectWindow 88000000 108000000 85000000 95000000
     = (88000000, 98000000, true, true).
Proof.
  assert (Hrange : 88000000 <= 108000000) by (apply Z.leb_le; reflexivity).
  assert (Hwin : 85000000 <= 95000000) by (apply Z.leb_le; reflexivity).
  split; [split; assumption |].
  pose proof (reinjectWindow_within_range 88000000 108000000 85000000 95000000
                Hrange Hwin) as Hthm.
  destruct (reinjectWindow 88000000 108000000 85000000 95000000)
    as [[[min max] adjLeft] adjRight] eqn:Hre.
  vm_compute in Hre. symmetry. exact Hre.
Defined.

(** A 10 MHz zoom window around 90 MHz over the range 88-108 MHz, with a
    minimum zoom bandwidth of 2.4 MHz. *)
Lemma zoom_sweep_window_within_range_witness :
  let d := plainDialog 88000000 108000000 90000000 0 10000000 100 2400000 0 false in
  (adjustingRange d = false
   /\ getMinFreq d <= getMaxFreq d
   /\ 0 <= getSpanFreq (waterfall (ui d))
   /\ fixedFreqMode (fst (onNewZoomLevel d)) = false)
  /\ snd (onNewZoomLevel d) = [EvDetailChanged 88000000 98000000 false]
  /\ currBw (fst (onNewZoomLevel d)) = 10000000.
Proof.
  intros d.
  assert (Hguard : adjustingRange d = false) by reflexivity.
  assert (Hrange : getMinFreq d <= getMaxFreq d) by (apply Z.leb_le; reflexivity).
  assert (Hspan : 0 <= getSpanFreq (waterfall (ui d)))
    by (apply Z.leb_le; reflexivity).
  assert (Hsweep : fixedFreqMode (fst (onNewZoomLevel d)) = false)
    by (vm_compute; reflexivity).
  split; [repeat split; assumption |].
  destruct (zoom_sweep_window_within_range d Hguard Hrange Hspan Hsweep)
    as (min & max & Hev & _ & _ & Hbw).
  assert (Hev' : snd (onNewZoomLevel d) = [EvDetailChanged 88000000 98000000 false])
    by (vm_compute; reflexivity).
  split; [exact Hev' |].
  rewrite Hbw. rewrite Hev in Hev'. injection Hev' as -> ->. reflexivity.
Defined.

(** A 2.4 MHz window panned to 107.5 MHz over the range 88-108 MHz ends at
    the upper border. *)
Lemma pan_window_within_range_witness :
  let d := plainDialog 88000000 108000000 98000000 0 2400000 100 2400000 2400000 true in
  0 <= currBw d <= getMaxFreq d - getMinFreq d
  /\ snd (onNewCenterFreq 107500000 d)
     = [EvDetailChanged 105600000 108000000 true].
Proof.
  intros d.
  assert (Hbw : 0 <= currBw d <= getMaxFreq d - getMinFreq d)
    by (split; apply Z.leb_le; reflexivity).
  split; [exact Hbw |].
  destruct (pan_window_within_range 107500000 d Hbw)
    as (min & max & Hev & _ & _ & Hborder).
  rewrite Hev.
  assert (Hev' : snd (onNewCenterFreq 107500000 d)
                 = [EvDetailChanged 105600000 108000000 true])
    by (vm_compute; reflexivity).
  rewrite Hev in Hev'. exact Hev'.
Defined.

End DialogScenarios.

Section FilterScenarios.
Import Timeval UIMediator.

(** The delays of 100, 80, 150 and 90 ms with the filter switched off. *)
Lemma feedAll_filter_disabled_witness :
  let cfg := mkGuiConfig false 50 in
  enableMsgTTL cfg = false
  /\ map accepted
       (snd (feedAll cfg (map frameWithDelay [100; 80; 150; 90]) freshSession))
     = [true; true; true; true]
  /\ fst (feedAll cfg (map frameWithDelay [100; 80; 150; 90]) freshSession)
     = freshSession.
Proof.
  intros cfg.
  assert (Hoff : enableMsgTTL cfg = false) by reflexivity.
  split; [exact Hoff |].
  destruct (feedAll_filter_disabled cfg (map frameWithDelay [100; 80; 150; 90])
              freshSession Hoff) as [Hst Htrace].
  rewrite Hst, Htrace. split; reflexivity.
Defined.

End FilterScenarios.

Section ExportDialogScenario.
Import SavedSpectrum ExportDialog.

(** A path that cannot be written, then one that can. *)
Lemma onExport_asks_until_done_witness :
  let fs := mkFileSystem ∅ (fun path => bool_decide (path = "/tmp/psd.m")) in
  let s := mkSavedSpectrum 88000000 108000000 [] in
  let showFloat := fun (_ : nat) (_ : Float32.float) => "0" in
  Forall (fun path => canOpenForWriting fs path = false) ["/proc/psd.m"]
  /\ onExport showFloat [Some "/proc/psd.m"; Some "/tmp/psd.m"; None] s fs 0
     = Some (snd (exportToFile showFloat "/tmp/psd.m" s fs), 1%nat)
  /\ onExport showFloat [Some "/proc/psd.m"] s fs 0 = None.
Proof.
  intros fs s showFloat.
  assert (Hfailed : Forall (fun path => canOpenForWriting fs path = false)
                      ["/proc/psd.m"]).
  { apply List.Forall_cons; [reflexivity | apply List.Forall_nil]. }
  split; [exact Hfailed |].
  destruct (onExport_asks_until_done showFloat ["/proc/psd.m"]
              (Some "/tmp/psd.m") [None] s fs 0%nat Hfailed) as [Hdone Hopen].
  split; [exact Hdone | exact Hopen].
Defined.

End ExportDialogScenario.

Section SessionScenarios.
Import Widgets PanoramicDialog Session.

(** Two frames, then a zoom, a pan and a sample-rate change. *)
Lemma saved_spectrum_is_last_frame_witness :
  let p :=
    plainPanel
      (plainDialog 88000000 108000000 98000000 0 20000000 100 2400000 0 false)
      2400000 in
  let later := [Zoom; Pan 100000000; EditSampleRate 1000000] in
  Forall (fun a => isFeed a = false) later
  /\ saved (actAll ([Feed 88000000 108000000 [Float32.zero]]
                     ++ Feed 90000000 100000000 [Float32.one] :: later) p)
     = SavedSpectrum.mkSavedSpectrum 90000000 100000000 [Float32.one].
Proof.
  intros p later.
  assert (Hlater : Forall (fun a => isFeed a = false) later).
  { repeat (apply List.Forall_cons; [reflexivity |]). apply List.Forall_nil. }
  split; [exact Hlater |].
  destruct (saved_spectrum_is_last_frame
              [Feed 88000000 108000000 [Float32.zero]]
              90000000 100000000 [Float32.one] later p Hlater) as [Hsaved _].
  exact Hsaved.
Defined.

(** Two frames over 88-108 MHz with a pan in between. *)
Lemma feed_same_bounds_only_pushes_data_witness :
  let p :=
    plainPanel
      (plainDialog 88000000 108000000 98000000 0 20000000 100 2400000 0 false)
      2400000 in
  let between := [Pan 100000000] in
  let p1 := actAll between (feed 88000000 108000000 [Float32.zero] p) in
  Forall (fun a => isFeed a = false) between
  /\ dialog (feed 88000000 108000000 [Float32.one] p1)
     = onWaterfall (setNewFftData [Float32.one]) (dialog p1).
Proof.
  intros p between p1.
  assert (Hbetween : Forall (fun a => isFeed a = false) between).
  { apply List.Forall_cons; [reflexivity | apply List.Forall_nil]. }
  split; [exact Hbetween |].
  exact (feed_same_bounds_only_pushes_data 88000000 108000000 [Float32.zero]
           between [Float32.one] p Hbetween).
Defined.

End SessionScenarios.
